(** * Job-submission models of the web portal: [DockerInfo] and [JobProtocol]

    A shallow embedding of
    [src/webportal/src/app/job-submission/models/docker-info.js] and
    [src/webportal/src/app/job-submission/models/job-protocol.js],
    followed by the properties of the two models.

    JavaScript values are embedded as a tree type; objects keep their
    own properties in insertion order.  Strings are sequences of 8-bit
    code units, numbers are integers.  A property read sees the own
    properties of a value and then what the value inherits from the
    prototype of its kind and from [Object.prototype]; the built-in
    objects that such a read returns are opaque values. *)

From Stdlib Require Import ZArith List String Ascii Bool Lia.
From Stdlib Require Import Numbers.DecimalString.
Import ListNotations.
Local Open Scope string_scope.
Local Open Scope Z_scope.
Set Warnings "-register-all".
Set Default Goal Selector "!".

(** ** JavaScript values and the operators the two models use *)

Module JS.

(** The kinds of value that have a prototype, and the built-in
    objects that a read through the prototype chain can return: the
    constructor of a kind, its prototype object, and a method found on
    the prototype of a kind. *)
Inductive kind : Type :=
| KObject
| KArray
| KString
| KNumber
| KBoolean.

Inductive native : Type :=
| Constructor (k : kind)
| Prototype (k : kind)
| Method (k : kind) (name : string).

Inductive value : Type :=
| VUndefined
| VNull
| VBool (b : bool)
| VNum (n : Z)
| VStr (s : string)
| VArr (xs : list value)
| VObj (fs : list (string * value))
| VNative (n : native).

(** A thrown [Error] object: its [name] and its [message]. *)
Inductive exn : Type :=
| Error (name : string) (message : value).

Definition message (e : exn) : value :=
  match e with Error _ m => m end.

(** The error of reading a property of [null] or [undefined]; the
    wording of its message is the engine's. *)
Definition TypeError : exn :=
  Error "TypeError" (VStr "Cannot read properties of null or undefined").

Inductive result (A : Type) : Type :=
| Ok (a : A)
| Throw (e : exn).
Arguments Ok {A} a.
Arguments Throw {A} e.

Definition bind {A B} (r : result A) (k : A -> result B) : result B :=
  match r with
  | Ok a => k a
  | Throw e => Throw e
  end.

Notation "'let*' x ':=' r 'in' k" := (bind r (fun x => k))
  (at level 10, x name, r at level 100, k at level 200).

(** A stronger induction principle: the generated one says nothing
    about the values below [VArr] and [VObj]. *)
Section value_induction.
Variable P : value -> Prop.
Hypothesis Hundef : P VUndefined.
Hypothesis Hnull : P VNull.
Hypothesis Hbool : forall b, P (VBool b).
Hypothesis Hnum : forall n, P (VNum n).
Hypothesis Hstr : forall s, P (VStr s).
Hypothesis Harr : forall xs, Forall P xs -> P (VArr xs).
Hypothesis Hobj : forall fs, Forall (fun kv => P (snd kv)) fs -> P (VObj fs).
Hypothesis Hnative : forall n, P (VNative n).

Fixpoint value_ind' (v : value) : P v :=
  match v with
  | VUndefined => Hundef
  | VNull => Hnull
  | VBool b => Hbool b
  | VNum n => Hnum n
  | VStr s => Hstr s
  | VArr xs =>
      Harr xs
        ((fix go (l : list value) : Forall P l :=
            match l with
            | [] => Forall_nil P
            | x :: l' => Forall_cons x (value_ind' x) (go l')
            end) xs)
  | VObj fs =>
      Hobj fs
        ((fix go (l : list (string * value))
            : Forall (fun kv => P (snd kv)) l :=
            match l with
            | [] => Forall_nil _
            | kv :: l' =>
                Forall_cons (P := fun kv => P (snd kv)) kv
                  (value_ind' (snd kv)) (go l')
            end) fs)
  | VNative n => Hnative n
  end.
End value_induction.

Definition kind_eqb (a b : kind) : bool :=
  match a, b with
  | KObject, KObject | KArray, KArray | KString, KString
  | KNumber, KNumber | KBoolean, KBoolean => true
  | _, _ => false
  end.

(** Built-in objects are the same when they are the same object. *)
Definition native_eqb (a b : native) : bool :=
  match a, b with
  | Constructor x, Constructor y => kind_eqb x y
  | Prototype x, Prototype y => kind_eqb x y
  | Method x n, Method y m => kind_eqb x y && String.eqb n m
  | _, _ => false
  end.

(** Structural equality.  On primitives it is [===] (and the
    SameValueZero of [Map] keys). *)
Fixpoint value_eqb (a b : value) : bool :=
  match a, b with
  | VUndefined, VUndefined => true
  | VNull, VNull => true
  | VBool x, VBool y => Bool.eqb x y
  | VNum x, VNum y => Z.eqb x y
  | VStr x, VStr y => String.eqb x y
  | VArr xs, VArr ys =>
      (fix go (l1 l2 : list value) : bool :=
         match l1, l2 with
         | [], [] => true
         | x :: l1', y :: l2' => value_eqb x y && go l1' l2'
         | _, _ => false
         end) xs ys
  | VObj fs, VObj gs =>
      (fix go (l1 l2 : list (string * value)) : bool :=
         match l1, l2 with
         | [], [] => true
         | (k1, x) :: l1', (k2, y) :: l2' =>
             String.eqb k1 k2 && value_eqb x y && go l1' l2'
         | _, _ => false
         end) fs gs
  | VNative x, VNative y => native_eqb x y
  | _, _ => false
  end.

(** [ToBoolean]. *)
Definition truthy (v : value) : bool :=
  match v with
  | VUndefined | VNull => false
  | VBool b => b
  | VNum n => negb (n =? 0)
  | VStr s => negb (String.eqb s "")
  | VArr _ | VObj _ | VNative _ => true
  end.

(** [a || b]. *)
Definition or (a b : value) : value := if truthy a then a else b.

Definition nat_to_string (n : nat) : string :=
  NilZero.string_of_uint (Nat.to_uint n).

Definition Z_to_string (n : Z) : string :=
  NilZero.string_of_int (Z.to_int n).

Fixpoint chars (s : string) : list value :=
  match s with
  | EmptyString => []
  | String c s' => VStr (String c EmptyString) :: chars s'
  end.

Fixpoint indexed_from (i : nat) (xs : list value) : list (string * value) :=
  match xs with
  | [] => []
  | x :: xs' => (nat_to_string i, x) :: indexed_from (S i) xs'
  end.

(** Own enumerable string-keyed properties, in enumeration order. *)
Definition own_props (v : value) : list (string * value) :=
  match v with
  | VObj fs => fs
  | VArr xs => indexed_from 0 xs
  | VStr s => indexed_from 0 (chars s)
  | _ => []
  end.

Fixpoint lookup (k : string) (fs : list (string * value)) : option value :=
  match fs with
  | [] => None
  | (k', v) :: fs' => if String.eqb k k' then Some v else lookup k fs'
  end.

Definition has_key (k : string) (fs : list (string * value)) : bool :=
  match lookup k fs with Some _ => true | None => false end.

(** The prototype a value inherits from first.  The properties of
    a built-in object are not modelled: the models store, test and
    prune such a value and never read from it. *)
Definition kind_of (v : value) : option kind :=
  match v with
  | VObj _ => Some KObject
  | VArr _ => Some KArray
  | VStr _ => Some KString
  | VNum _ => Some KNumber
  | VBool _ => Some KBoolean
  | VUndefined | VNull | VNative _ => None
  end.

(** The methods of [Object.prototype]; [constructor] and the accessor
    [__proto__] are treated apart. *)
Definition Object_prototype : list string :=
  ["hasOwnProperty"; "isPrototypeOf"; "propertyIsEnumerable";
   "toLocaleString"; "toString"; "valueOf";
   "__defineGetter__"; "__defineSetter__";
   "__lookupGetter__"; "__lookupSetter__"].

(** The methods that the prototype of a kind has of its own. *)
Definition prototype_methods (k : kind) : list string :=
  match k with
  | KObject => Object_prototype
  | KArray =>
      ["at"; "concat"; "copyWithin"; "entries"; "every"; "fill"; "filter";
       "find"; "findIndex"; "findLast"; "findLastIndex"; "flat"; "flatMap";
       "forEach"; "includes"; "indexOf"; "join"; "keys"; "lastIndexOf";
       "map"; "pop"; "push"; "reduce"; "reduceRight"; "reverse"; "shift";
       "slice"; "some"; "sort"; "splice"; "toLocaleString"; "toReversed";
       "toSorted"; "toSpliced"; "toString"; "unshift"; "values"; "with"]
  | KString =>
      ["at"; "charAt"; "charCodeAt"; "codePointAt"; "concat"; "endsWith";
       "includes"; "indexOf"; "isWellFormed"; "lastIndexOf"; "localeCompare";
       "match"; "matchAll"; "normalize"; "padEnd"; "padStart"; "repeat";
       "replace"; "replaceAll"; "search"; "slice"; "split"; "startsWith";
       "substring"; "toLocaleLowerCase"; "toLocaleUpperCase"; "toLowerCase";
       "toString"; "toUpperCase"; "toWellFormed"; "trim"; "trimEnd";
       "trimStart"; "valueOf"; "substr"; "anchor"; "big"; "blink"; "bold";
       "fixed"; "fontcolor"; "fontsize"; "italics"; "link"; "small";
       "strike"; "sub"; "sup"; "trimLeft"; "trimRight"]
  | KNumber =>
      ["toExponential"; "toFixed"; "toLocaleString"; "toPrecision";
       "toString"; "valueOf"]
  | KBoolean => ["toString"; "valueOf"]
  end.

Definition mem (k : string) (names : list string) : bool :=
  existsb (String.eqb k) names.

(** What a value that lacks the property [k] inherits under [k]:
    the prototype of its kind is asked first, then [Object.prototype]. *)
Definition inherited (k : string) (v : value) : value :=
  match kind_of v with
  | None => VUndefined
  | Some kd =>
      if String.eqb k "constructor" then VNative (Constructor kd)
      else if String.eqb k "__proto__" then VNative (Prototype kd)
      else if mem k (prototype_methods kd) then VNative (Method kd k)
      else if mem k Object_prototype then VNative (Method KObject k)
      else VUndefined
  end.

(** [v[k]] on a value that is neither [null] nor [undefined]: an own
    property, the [length] of an array or string, or what is
    inherited. *)
Definition prop (k : string) (v : value) : value :=
  match lookup k (own_props v) with
  | Some x => x
  | None =>
      if String.eqb k "length" then
        match v with
        | VArr xs => VNum (Z.of_nat (List.length xs))
        | VStr s => VNum (Z.of_nat (String.length s))
        | _ => VUndefined
        end
      else inherited k v
  end.

(** [k in Object(v)] *)
Definition has_property (k : string) (v : value) : bool :=
  has_key k (own_props v)
  || (String.eqb k "length"
      && match v with VArr _ | VStr _ => true | _ => false end)
  || negb (match inherited k v with VUndefined => true | _ => false end).

Definition isNil (v : value) : bool :=
  match v with
  | VUndefined | VNull => true
  | _ => false
  end.

(** [v[k]] / [v.k]: reading a property of [null] or [undefined] throws. *)
Definition member (v : value) (k : string) : result value :=
  if isNil v then Throw TypeError else Ok (prop k v).

(** A property [k] defined as [v] on the properties [fs] (in an
    object literal, by a spread, or by an assignment that meets no
    setter): an existing key keeps its place, a new one goes last. *)
Fixpoint set (k : string) (v : value) (fs : list (string * value))
  : list (string * value) :=
  match fs with
  | [] => [(k, v)]
  | (k', v') :: fs' =>
      if String.eqb k k' then (k, v) :: fs' else (k', v') :: set k v fs'
  end.

(** [{...target, ...source}] continued: copy the own properties of a
    source over the properties collected so far. *)
Definition assign (target : list (string * value)) (source : value)
  : list (string * value) :=
  fold_left (fun acc kv => set (fst kv) (snd kv) acc) (own_props source) target.

(** [String(v)]. *)
Fixpoint ToString (v : value) : string :=
  match v with
  | VUndefined => "undefined"
  | VNull => "null"
  | VBool true => "true"
  | VBool false => "false"
  | VNum n => Z_to_string n
  | VStr s => s
  | VArr xs =>
      (fix join (l : list value) : string :=
         match l with
         | [] => ""
         | x :: l' =>
             (match x with
              | VUndefined | VNull => ""
              | _ => ToString x
              end)
             ++ (match l' with [] => "" | _ => "," ++ join l' end)
         end) xs
  | VObj _ => "[object Object]"
  | VNative (Constructor k) =>
      "function "
      ++ match k with
         | KObject => "Object"
         | KArray => "Array"
         | KString => "String"
         | KNumber => "Number"
         | KBoolean => "Boolean"
         end
      ++ "() { [native code] }"
  | VNative (Method _ name) => "function " ++ name ++ "() { [native code] }"
  | VNative (Prototype KObject) => "[object Object]"
  | VNative (Prototype KArray) => ""
  | VNative (Prototype KString) => ""
  | VNative (Prototype KNumber) => "0"
  | VNative (Prototype KBoolean) => "false"
  end.

(** [o[k] = v] on a fresh object literal [o = {}]: the key
    [__proto__] meets the setter of [Object.prototype], which defines
    no property. *)
Definition assign_to_empty (k : string) (v : value) : list (string * value) :=
  if String.eqb k "__proto__" then [] else set k v [].

End JS.

(** ** The lodash functions the models import *)

Module Lodash.
Import JS.

Definition isNil := JS.isNil.

(** [_.isEmpty]: collections by size, everything else is empty. *)
Definition isEmpty (v : value) : bool :=
  match v with
  | VStr s => String.eqb s ""
  | VArr xs => match xs with [] => true | _ => false end
  | VObj fs => match fs with [] => true | _ => false end
  | _ => true
  end.

(** Split a property path at its dots ([stringToPath] on a path
    without brackets). *)
Fixpoint split_dots (cur : string) (s : string) : list string :=
  match s with
  | EmptyString => [cur]
  | String c s' =>
      if Ascii.eqb c "."%char then cur :: split_dots "" s'
      else split_dots (cur ++ String c EmptyString) s'
  end.

Fixpoint baseGet (object : value) (path : list string) : value :=
  match path with
  | [] => object
  | k :: path' => if JS.isNil object then VUndefined else baseGet (prop k object) path'
  end.

(** [_.get(object, path, defaultValue)]: a path that is itself a key of
    the object is read as that key; the default stands in for
    [undefined] only. *)
Definition get (object : value) (path : string) (defaultValue : value) : value :=
  let keys :=
    if has_property path object then [path] else split_dots "" path in
  let r := if JS.isNil object then VUndefined else baseGet object keys in
  match r with
  | VUndefined => defaultValue
  | _ => r
  end.

End Lodash.

(** ** Regular expressions, as far as [SECRET_PATTERN] needs them *)

Module RegExp.
Import JS.

(** The atoms of a pattern that is a plain sequence: a literal
    character, [.], a character class, a greedy starred class, and
    the parentheses of capture group 1. *)
Inductive atom : Type :=
| Chr (c : ascii)
| Dot
| Cls (p : ascii -> bool)
| ClsStar (p : ascii -> bool)
| GroupOpen
| GroupClose.

Definition span : Type := (nat * nat)%type.

(** [.] matches any character but a line terminator. *)
Definition line_terminator (c : ascii) : bool :=
  (Ascii.eqb c "010" || Ascii.eqb c "013")%bool.

(** Backtracking match of the atoms [r] against the input [s] that
    starts at offset [pos]: the end offset of the match and the span of
    group 1.  A starred class takes the longest run first and gives
    characters back one at a time. *)
Fixpoint run (r : list atom) (s : string) (pos gstart : nat)
    (cap : option span) {struct r} : option (nat * option span) :=
  match r with
  | [] => Some (pos, cap)
  | Chr c :: r' =>
      match s with
      | String c' s' =>
          if Ascii.eqb c c' then run r' s' (S pos) gstart cap else None
      | EmptyString => None
      end
  | Dot :: r' =>
      match s with
      | String c' s' =>
          if line_terminator c' then None else run r' s' (S pos) gstart cap
      | EmptyString => None
      end
  | Cls p :: r' =>
      match s with
      | String c' s' => if p c' then run r' s' (S pos) gstart cap else None
      | EmptyString => None
      end
  | ClsStar p :: r' =>
      (fix star (s : string) (pos : nat) {struct s} :=
         match s with
         | String c' s' =>
             if p c' then
               match star s' (S pos) with
               | Some res => Some res
               | None => run r' s pos gstart cap
               end
             else run r' s pos gstart cap
         | EmptyString => run r' s pos gstart cap
         end) s pos
  | GroupOpen :: r' => run r' s pos pos cap
  | GroupClose :: r' => run r' s pos gstart (Some (gstart, pos))
  end.

(** [re.exec(str)] for a pattern that starts with [^] and has no
    flags: one attempt at offset 0; the result is [null] or the array
    of the match and of group 1. *)
Definition exec (r : list atom) (str : value) : value :=
  let s := ToString str in
  match run r s 0%nat 0%nat None with
  | None => VNull
  | Some (e, cap) =>
      VArr [VStr (substring 0 e s);
            match cap with
            | Some (a, b) => VStr (substring a (b - a) s)
            | None => VUndefined
            end]
  end.

Fixpoint lit (s : string) : list atom :=
  match s with
  | EmptyString => []
  | String c s' => Chr c :: lit s'
  end.

Definition in_range (lo hi c : ascii) : bool :=
  ((nat_of_ascii lo <=? nat_of_ascii c)%nat
   && (nat_of_ascii c <=? nat_of_ascii hi)%nat)%bool.

(** [[a-zA-Z_]] *)
Definition ident_start (c : ascii) : bool :=
  (in_range "a" "z" c || in_range "A" "Z" c || Ascii.eqb c "_")%bool.

(** [[a-zA-Z0-9_]] *)
Definition ident_char (c : ascii) : bool :=
  (in_range "a" "z" c || in_range "A" "Z" c || in_range "0" "9" c
   || Ascii.eqb c "_")%bool.

End RegExp.

(** ** [utils/utils] *)

Module Utils.
Import JS.

(** A value that pruning removes when it is the value of a field. *)
Definition empty_prunable (v : value) : bool :=
  match v with
  | VStr s => String.eqb s ""
  | VArr [] => true
  | VObj [] => true
  | _ => false
  end.

(** Modelled from the spec: [removeEmptyProperties] is imported from
    [utils/utils], which is not among the sources.  The spec has
    pruning remove the fields whose value is an empty string, empty
    mapping or empty sequence, recursively, so that no empty mapping
    or sequence field is left: the fields below a field are pruned
    before the field itself is looked at, and the elements of a
    sequence are pruned in place. *)
Fixpoint removeEmptyProperties (v : value) : value :=
  match v with
  | VObj fs =>
      VObj
        ((fix go (l : list (string * value)) : list (string * value) :=
            match l with
            | [] => []
            | (k, x) :: l' =>
                let x' := removeEmptyProperties x in
                if empty_prunable x' then go l' else (k, x') :: go l'
            end) fs)
  | VArr xs => VArr (List.map removeEmptyProperties xs)
  | _ => v
  end.

(** Modelled from the spec: [keyValueArrayReducer] is imported from
    [utils/utils], which is not among the sources.  The spec has it
    fold key/value pairs into a single ordered mapping, later
    duplicate keys overwriting earlier values. *)
Definition keyValueArrayReducer (acc cur : value) : value :=
  VObj (assign (own_props acc) cur).

(** [xs.reduce(f, init)] *)
Definition reduce (f : value -> value -> value) (xs : list value)
    (init : value) : value :=
  fold_left f xs init.

End Utils.

(** ** [models/docker-info.js] *)

Module DockerInfo.
Import JS.

(** The pattern [^<% \$secrets.(ID) %>], anchored at the start only,
    where [ID] is one character of [a-zA-Z_] and then any number of
    [a-zA-Z0-9_]; the dot after [secrets] is written without a
    backslash. *)
Definition SECRET_PATTERN : list RegExp.atom :=
  (RegExp.lit "<% " ++ [RegExp.Chr "$"] ++ RegExp.lit "secrets"
   ++ [RegExp.Dot; RegExp.GroupOpen; RegExp.Cls RegExp.ident_start;
       RegExp.ClsStar RegExp.ident_char; RegExp.GroupClose]
   ++ RegExp.lit " %>")%list.

(** What the class reads from its surroundings: the clock behind
    [Date.now()] and the global variable [name] that the constructor
    refers to. *)
Record env : Type := {
  now : Z;
  global_name : value
}.

Record t : Type := {
  uri : value;
  auth : value;
  updateTime : value;
  secretRef : value;
  name : value
}.

(** [new DockerInfo(props)]; destructuring [null] or [undefined]
    throws. *)
Definition new (e : env) (props : value) : result t :=
  if isNil props then Throw TypeError
  else
    let uri := prop "uri" props in
    let auth := prop "auth" props in
    let secretRef := prop "secretRef" props in
    Ok {| uri := or uri (VStr "");
          auth := or auth (VObj []);
          updateTime := VNum (now e);
          secretRef :=
            if negb (Lodash.isEmpty secretRef) then secretRef else VStr "";
          name := or (global_name e) (VStr "") |}.

Definition fromProtocol (e : env) (dockerInfoProtocol secrets : value)
  : result t :=
  let secretRef := Lodash.get dockerInfoProtocol "auth.password" (VStr "") in
  let* auth_secretRef :=
    if negb (Lodash.isNil secretRef) then
      let secretKey := RegExp.exec SECRET_PATTERN secretRef in
      let* secretKey :=
        if Lodash.isEmpty secretKey then Ok (VStr "")
        else member secretKey "1" in
      let* resolvable :=
        if negb (Lodash.isEmpty secretKey) then
          let* s := member secrets (ToString secretKey) in
          Ok (negb (Lodash.isNil s))
        else Ok false in
      if resolvable then
        let* a := member dockerInfoProtocol "auth" in
        let* s := member secrets (ToString secretKey) in
        Ok (VObj (set "password" s (assign [] a)), secretRef)
      else Ok (VObj [], VStr "")
    else Ok (VUndefined, secretRef) in
  new e (VObj (set "secretRef" (snd auth_secretRef)
                 (set "auth" (fst auth_secretRef)
                    (assign [] dockerInfoProtocol)))).

Definition convertToProtocolFormat (d : t) : value :=
  let prunedAuth := assign [] (auth d) in
  let prunedAuth :=
    if negb (Lodash.isEmpty (secretRef d))
    then set "password" (secretRef d) prunedAuth
    else prunedAuth in
  Utils.removeEmptyProperties
    (VObj [("type", VStr "dockerimage");
           ("auth", VObj prunedAuth);
           ("uri", uri d);
           ("name", name d)]).

End DockerInfo.

(** ** [Map], keyed by values *)

Module JSMap.
Import JS.

(** Entries in insertion order.  Keys are compared with [value_eqb]:
    that is SameValueZero on the primitive keys the models use. *)
Definition t : Type := list (value * value).

(** [map.set(k, v)]: a key already present keeps its position. *)
Fixpoint set (k v : value) (m : t) : t :=
  match m with
  | [] => [(k, v)]
  | (k', v') :: m' =>
      if value_eqb k k' then (k, v) :: m' else (k', v') :: set k v m'
  end.

(** [map.get(k)] *)
Fixpoint get (k : value) (m : t) : option value :=
  match m with
  | [] => None
  | (k', v') :: m' => if value_eqb k k' then Some v' else get k m'
  end.

(** [Array.from(map.values())] *)
Definition values (m : t) : list value := List.map snd m.

Definition keys (m : t) : list value := List.map fst m.

End JSMap.

(** ** The collaborators of [getUpdatedProtocol] *)

(** Modelled from the spec: the task-role class is not among the
    sources.  [getUpdatedProtocol] reads a role's [name] and calls
    [getDockerPrerequisite()], [getDeployment()] and
    [convertToProtocolFormat()] on it; a role is given by what these
    return.  A prerequisite is a named requirement object, given by
    its properties. *)
Module TaskRole.
Record t : Type := {
  name : JS.value;
  getDockerPrerequisite : list (string * JS.value);
  getDeployment : JS.value;
  convertToProtocolFormat : JS.value
}.
End TaskRole.

(** Modelled from the spec: the basic-info class is not among the
    sources.  [getUpdatedProtocol] calls [getDefaults()] and
    [convertToProtocolFormat()] on it. *)
Module JobBasicInfo.
Record t : Type := {
  getDefaults : JS.value;
  convertToProtocolFormat : JS.value
}.
End JobBasicInfo.

(** An edited parameter or secret: the rows of the key/value tables. *)
Module KeyValue.
Record t : Type := {
  key : JS.value;
  value : JS.value
}.
End KeyValue.

(** ** [models/job-protocol.js] *)

Module JobProtocol.
Import JS.

Record t : Type := {
  protocolVersion : value;
  name : value;
  description : value;
  contributor : value;
  type : value;
  jobRetryCount : value;
  prerequisites : value;
  parameters : value;
  taskRoles : value;
  deployments : value;
  secrets : value;
  defaults : value;
  extras : value
}.

(** The instance as an object: its own properties, in the order the
    constructor assigns them. *)
Definition to_object (d : t) : value :=
  VObj [("protocolVersion", protocolVersion d);
        ("name", name d);
        ("description", description d);
        ("contributor", contributor d);
        ("type", type d);
        ("jobRetryCount", jobRetryCount d);
        ("prerequisites", prerequisites d);
        ("parameters", parameters d);
        ("taskRoles", taskRoles d);
        ("deployments", deployments d);
        ("secrets", secrets d);
        ("defaults", defaults d);
        ("extras", extras d)].

(** The body of the constructor, after [props] is destructured. *)
Definition construct (props : value) : t :=
  let name := prop "name" props in
  let jobRetryCount := prop "jobRetryCount" props in
  let prerequisites := prop "prerequisites" props in
  let parameters := prop "parameters" props in
  let taskRoles := prop "taskRoles" props in
  let deployments := prop "deployments" props in
  let description := prop "description" props in
  let contributor := prop "contributor" props in
  let secrets := prop "secrets" props in
  let defaults := prop "defaults" props in
  let extras := prop "extras" props in
  {| protocolVersion := VNum 2;
     name := or name (VStr "");
     description := or description (VStr "");
     contributor := or contributor (VStr "");
     type := VStr "job";
     jobRetryCount := or jobRetryCount (VNum 0);
     prerequisites := or prerequisites (VArr []);
     parameters := or parameters (VObj []);
     taskRoles := or taskRoles (VObj []);
     deployments := or deployments (VObj []);
     secrets := or secrets (VObj []);
     defaults := or defaults (VObj []);
     extras := or extras (VObj []) |}.

(** [new JobProtocol(props)]; destructuring [null] or [undefined]
    throws. *)
Definition new (props : value) : result t :=
  if isNil props then Throw TypeError else Ok (construct props).

(** What a method hands back when its [try] block is left through
    [catch]: the message shown by [alert], and [undefined]. *)
Inductive alerting (A : Type) : Type :=
| Return (a : A)
| Alert (message : value).
Arguments Return {A} a.
Arguments Alert {A} message.

Definition try_alert {A} (r : result A) : alerting A :=
  match r with
  | Ok a => Return a
  | Throw e => Alert (message e)
  end.

(** [String(e)] of an [Error] object ([Error.prototype.toString]). *)
Definition Error_toString (e : exn) : string :=
  match e with
  | Error name message =>
      let msg := match message with VUndefined => "" | _ => ToString message end in
      if String.eqb name "" then msg
      else if String.eqb msg "" then name
      else name ++ ": " ++ msg
  end.

Section Libraries.
(** [yaml.safeLoad] and [yaml.safeDump] of js-yaml: either throws. *)
Variable safeLoad : string -> result value.
Variable safeDump : value -> result string.
(** [Joi.validate(protocol, jobProtocolSchema)], by the [error] of
    its result: [None] for [null], else the error object. *)
Variable validate : value -> result (option exn).

Definition fromYaml (protocolYaml : string) : alerting t :=
  try_alert
    (let* jobProtocol := safeLoad protocolYaml in
     new jobProtocol).

Definition validateFromYaml (protocolYaml : string) : string :=
  match safeLoad protocolYaml with
  | Ok protocol =>
      match validate protocol with
      | Ok (Some error) => Error_toString error
      | Ok None => ToString (VStr "")
      | Throw err => ToString (message err)
      end
  | Throw err => ToString (message err)
  end.

Definition toYaml (this : t) : alerting string :=
  try_alert (safeDump (Utils.removeEmptyProperties (to_object this))).
End Libraries.

(** [const param = {}; param[k] = v; return param;] *)
Definition singleton (k v : value) : value :=
  VObj (assign_to_empty (ToString k) v).

Definition _getTaskRolesPrerequisites (jobTaskRoles : list TaskRole.t)
  : value :=
  let prerequisites :=
    List.map (fun taskRole => VObj (TaskRole.getDockerPrerequisite taskRole))
      jobTaskRoles in
  let map :=
    fold_left (fun map value => JSMap.set (prop "name" value) value map)
      prerequisites [] in
  VArr (JSMap.values map).

Definition _updateAndConvertTaskRoles (jobTaskRoles : list TaskRole.t)
  : value :=
  Utils.reduce Utils.keyValueArrayReducer
    (List.map TaskRole.convertToProtocolFormat jobTaskRoles) (VObj []).

Definition _generateDeployments (jobTaskRoles : list TaskRole.t) : value :=
  let deployments :=
    Utils.reduce Utils.keyValueArrayReducer
      (List.map
         (fun taskRole =>
            singleton (TaskRole.name taskRole) (TaskRole.getDeployment taskRole))
         jobTaskRoles)
      (VObj []) in
  Utils.removeEmptyProperties deployments.

(** The mapping built from the rows of a key/value table. *)
Definition edits_mapping (edits : list KeyValue.t) : value :=
  Utils.removeEmptyProperties
    (Utils.reduce Utils.keyValueArrayReducer
       (List.map (fun e => singleton (KeyValue.key e) (KeyValue.value e)) edits)
       (VObj [])).

Definition getUpdatedProtocol (this : t) (jobBasicInfo : JobBasicInfo.t)
    (jobTaskRoles : list TaskRole.t) (jobParameters jobSecrets : list KeyValue.t)
  : result t :=
  let parameters := edits_mapping jobParameters in
  let deployments := _generateDeployments jobTaskRoles in
  let delpoyName :=
    Lodash.get (to_object this) "defaults.deployment" (VStr "defaultDeployment") in
  let deployments :=
    if Lodash.isEmpty deployments then VArr []
    else VArr [VObj [("name", delpoyName); ("taskRoles", deployments)]] in
  let prerequisites := _getTaskRolesPrerequisites jobTaskRoles in
  let taskRoles := _updateAndConvertTaskRoles jobTaskRoles in
  let secrets := edits_mapping jobSecrets in
  let defaultsField :=
    Utils.removeEmptyProperties (JobBasicInfo.getDefaults jobBasicInfo) in
  new (VObj
         (set "defaults" defaultsField
         (set "secrets" secrets
         (set "deployments" deployments
         (set "prerequisites" prerequisites
         (set "taskRoles" taskRoles
         (set "parameters" parameters
         (assign (assign [] (to_object this))
            (JobBasicInfo.convertToProtocolFormat jobBasicInfo))))))))).

End JobProtocol.

(** ** The [Secrets] component: the handlers of its table *)

Module Secrets.
Import JS.

(** The rows of the table are objects, shared by the arrays that hold
    them: the store keeps the rows, an array holds their addresses. *)
Definition store : Type := list KeyValue.t.
Definition array : Type := list nat.

(** [{key: '', value: ''}] *)
Definition blank : KeyValue.t :=
  {| KeyValue.key := VStr ""; KeyValue.value := VStr "" |}.

(** An index argument of [slice], taken from the end when negative
    and cut to the bounds of the array. *)
Definition relative (len i : Z) : Z :=
  if i <? 0 then Z.max (len + i) 0 else Z.min i len.

(** [xs.slice(start, end)] *)
Definition slice {A} (xs : list A) (start end_ : Z) : list A :=
  let len := Z.of_nat (List.length xs) in
  let k := relative len start in
  let final := relative len end_ in
  firstn (Z.to_nat (final - k)) (skipn (Z.to_nat k) xs).

(** [xs.slice(start)] *)
Definition slice_from {A} (xs : list A) (start : Z) : list A :=
  slice xs start (Z.of_nat (List.length xs)).

(** [xs[i]]: [None] stands for [undefined]. *)
Definition at_ {A} (xs : list A) (i : Z) : option A :=
  if i <? 0 then None else nth_error xs (Z.to_nat i).

(** An assignment to a property of the row at an address. *)
Fixpoint update (s : store) (r : nat) (f : KeyValue.t -> KeyValue.t) : store :=
  match s, r with
  | [], _ => []
  | row :: s', O => f row :: s'
  | row :: s', S r' => row :: update s' r' f
  end.

(** The rows an array shows. *)
Definition rows (s : store) (a : array) : list (option KeyValue.t) :=
  List.map (nth_error s) a.

(** Each handler is given by the store it leaves and the array it
    passes to [onChange]. *)
Definition onAdd (s : store) (secrets : array) : store * array :=
  (s ++ [blank], secrets ++ [List.length s])%list.

Definition onRemove (s : store) (secrets : array) (idx : Z) : store * array :=
  (s, slice secrets 0 idx ++ slice_from secrets (idx + 1))%list.

Definition onKeyChange (s : store) (secrets : array) (idx : Z) (val : value)
  : result (store * array) :=
  let updatedParameters := secrets in
  match at_ updatedParameters idx with
  | None => Throw TypeError
  | Some r =>
      Ok (update s r
            (fun row => {| KeyValue.key := val;
                           KeyValue.value := KeyValue.value row |}),
          updatedParameters)
  end.

Definition onValueChange (s : store) (secrets : array) (idx : Z) (val : value)
  : result (store * array) :=
  let updatedParameters := secrets in
  match at_ updatedParameters idx with
  | None => Throw TypeError
  | Some r =>
      Ok (update s r
            (fun row => {| KeyValue.key := KeyValue.key row;
                           KeyValue.value := val |}),
          updatedParameters)
  end.

End Secrets.

(** * Vocabulary of the properties and worked inputs *)

Section Vocabulary.
Import JS.

Definition memb (x : value) (l : list value) : bool := existsb (value_eqb x) l.

(** The distinct elements of a list, each at its first occurrence. *)
Fixpoint first_seen (names : list value) : list value :=
  match names with
  | [] => []
  | n :: rest =>
      n :: List.filter (fun m => negb (value_eqb m n)) (first_seen rest)
  end.

(** The last object in a list whose [name] is [n]. *)
Fixpoint last_named (n : value) (ps : list value) : option value :=
  match ps with
  | [] => None
  | p :: ps' =>
      match last_named n ps' with
      | Some q => Some q
      | None => if value_eqb (prop "name" p) n then Some p else None
      end
  end.

(** The value of the last row of a key/value table whose key is [k]. *)
Fixpoint last_edit (k : string) (edits : list KeyValue.t) : option value :=
  match edits with
  | [] => None
  | e :: rest =>
      match last_edit k rest with
      | Some v => Some v
      | None =>
          if String.eqb (ToString (KeyValue.key e)) k
          then Some (KeyValue.value e) else None
      end
  end.

(** No field, at any depth, holds an empty string, an empty mapping
    or an empty sequence. *)
Fixpoint no_empty_fields (v : value) : bool :=
  match v with
  | VObj fs =>
      (fix go (l : list (string * value)) : bool :=
         match l with
         | [] => true
         | (_, x) :: l' =>
             negb (Utils.empty_prunable x) && no_empty_fields x && go l'
         end) fs
  | VArr xs => forallb no_empty_fields xs
  | _ => true
  end.

Fixpoint all_chars (p : ascii -> bool) (s : string) : bool :=
  match s with
  | EmptyString => true
  | String c s' => p c && all_chars p s'
  end.

(** A secret key as the pattern reads it: a letter or underscore,
    then letters, digits and underscores. *)
Definition identifier (id : string) : bool :=
  match id with
  | EmptyString => false
  | String c r => RegExp.ident_start c && all_chars RegExp.ident_char r
  end.

(** [{auth: {password: pw}}] *)
Definition with_password (pw : string) : value :=
  VObj [("auth", VObj [("password", VStr pw)])].


(** The value that the last of a list of objects to have the key [k]
    gives it. *)
Fixpoint last_binding (k : string) (objects : list value) : option value :=
  match objects with
  | [] => None
  | o :: rest =>
      match last_binding k rest with
      | Some v => Some v
      | None => lookup k (own_props o)
      end
  end.

Definition is_object (v : value) : bool :=
  match v with VObj _ | VNative _ => true | _ => false end.

Definition is_digit (c : ascii) : bool := RegExp.in_range "0" "9" c.

Definition starts_with_digit (k : string) : bool :=
  match k with
  | EmptyString => false
  | String c _ => is_digit c
  end.

(** The fields of an object after pruning. *)
Definition pruned_fields (fs : list (string * value)) : list (string * value) :=
  own_props (Utils.removeEmptyProperties (VObj fs)).

End Vocabulary.

Module Examples.
Import JS.

Definition row (k v : string) : KeyValue.t :=
  {| KeyValue.key := VStr k; KeyValue.value := VStr v |}.

(** [[{key: "a", value: "1"}, {key: "a", value: "2"}, {key: "b", value: ""}]] *)
Definition edits_a_a_b : list KeyValue.t :=
  [row "a" "1"; row "a" "2"; row "b" ""].

(** A task role that needs the image [image], under the prerequisite
    name [prerequisite]. *)
Definition role (n prerequisite image : string) : TaskRole.t :=
  {| TaskRole.name := VStr n;
     TaskRole.getDockerPrerequisite :=
       [("type", VStr "dockerimage"); ("uri", VStr image);
        ("name", VStr prerequisite)];
     TaskRole.getDeployment := VObj [];
     TaskRole.convertToProtocolFormat :=
       VObj [(n, VObj [("instances", VNum 1);
                       ("dockerImage", VStr prerequisite)])] |}.

(** Roles [A], [B], [A'], where [A] and [A'] share the prerequisite
    name ["img"]. *)
Definition roles_A_B_A' : list TaskRole.t :=
  [role "A" "img" "ubuntu:16.04"; role "B" "other" "alpine";
   role "A2" "img" "ubuntu:18.04"].

Definition env : DockerInfo.env :=
  {| DockerInfo.now := 1561939200000; DockerInfo.global_name := VStr "" |}.

Definition token_k1 : string := "<% $secrets.k1 %>".

(** [{auth: {password: "<% $secrets.k1 %>"}}] *)
Definition raw_k1 : value :=
  VObj [("auth", VObj [("password", VStr token_k1)])].

(** [{k1: "hunter2"}] *)
Definition secrets_k1 : value := VObj [("k1", VStr "hunter2")].

(** [{protocolVersion: 3, type: "task", name: "job1"}] *)
Definition bundle_v3 : value :=
  VObj [("protocolVersion", VNum 3); ("type", VStr "task");
        ("name", VStr "job1")].

(** A field bundle in which no field is empty. *)
Definition bundle_full : value :=
  VObj [("name", VStr "job1");
        ("jobRetryCount", VNum 0);
        ("prerequisites",
         VArr [VObj [("type", VStr "dockerimage"); ("uri", VStr "ubuntu");
                     ("name", VStr "img")]]);
        ("parameters", VObj [("rate", VStr "fast")]);
        ("taskRoles",
         VObj [("worker", VObj [("instances", VNum 1);
                                ("dockerImage", VStr "img")])]);
        ("deployments",
         VArr [VObj [("name", VStr "defaultDeployment");
                     ("taskRoles",
                      VObj [("worker",
                             VObj [("preCommands", VArr [VStr "date"])])])]]);
        ("description", VStr "demo");
        ("contributor", VStr "alice");
        ("secrets", VObj [("k1", VStr "hunter2")]);
        ("defaults", VObj [("deployment", VStr "defaultDeployment")]);
        ("extras", VObj [("submitFrom", VStr "portal")])].

Definition document : JobProtocol.t := JobProtocol.construct bundle_full.

Definition lines (ls : list string) : string :=
  String.concat (String "010" "") ls.

(** The YAML text of [document]. *)
Definition document_yaml : string :=
  lines ["protocolVersion: 2";
         "name: job1";
         "description: demo";
         "contributor: alice";
         "type: job";
         "jobRetryCount: 0";
         "prerequisites:";
         "  - type: dockerimage";
         "    uri: ubuntu";
         "    name: img";
         "parameters:";
         "  rate: fast";
         "taskRoles:";
         "  worker:";
         "    instances: 1";
         "    dockerImage: img";
         "deployments:";
         "  - name: defaultDeployment";
         "    taskRoles:";
         "      worker:";
         "        preCommands:";
         "          - date";
         "secrets:";
         "  k1: hunter2";
         "defaults:";
         "  deployment: defaultDeployment";
         "extras:";
         "  submitFrom: portal";
         ""].

(** The libraries cut down to a table, to run the models on concrete
    texts: [document_yaml] is the text of [document], which the schema
    accepts; ["not: [valid"] is not YAML; the schema rejects
    ["name: 7"]. *)
Definition safeLoad (text : string) : result value :=
  if String.eqb text document_yaml then Ok (JobProtocol.to_object document)
  else if String.eqb text "name: 7" then Ok (VObj [("name", VNum 7)])
  else if String.eqb text "not: [valid" then
    Throw (Error "YAMLException"
             (VStr "unexpected end of the stream within a flow collection at line 2, column 1"))
  else Throw (Error "YAMLException" (VStr "text outside the table")).

Definition safeDump (v : value) : result string :=
  if value_eqb v (JobProtocol.to_object document) then Ok document_yaml
  else if value_eqb v (VObj [("name", VNum 7)]) then Ok "name: 7"
  else Throw (Error "YAMLException" (VStr "value outside the table")).

Definition validate (v : value) : result (option exn) :=
  if value_eqb v (JobProtocol.to_object document) then Ok None
  else Ok (Some (Error "ValidationError"
                   (VStr "child 'name' fails because ['name' must be a string]"))).

End Examples.

Module MoreExamples.
Import JS.

(** A document without deployments, as [getUpdatedProtocol] leaves it. *)
Definition bundle_no_deployments : value :=
  VObj [("name", VStr "job1"); ("deployments", VArr [])].

Definition document : JobProtocol.t :=
  JobProtocol.construct bundle_no_deployments.

Definition written : value :=
  VObj [("protocolVersion", VNum 2); ("name", VStr "job1");
        ("type", VStr "job"); ("jobRetryCount", VNum 0)].

Definition document_yaml : string :=
  Examples.lines ["protocolVersion: 2"; "name: job1"; "type: job";
                  "jobRetryCount: 0"; ""].

(** A second table for the parser and the serialiser: the empty text
    parses to [undefined], ["7"] to a number. *)
Definition safeLoad (text : string) : result value :=
  if String.eqb text document_yaml then Ok written
  else if String.eqb text "" then Ok VUndefined
  else if String.eqb text "7" then Ok (VNum 7)
  else Throw (Error "YAMLException" (VStr "text outside the table")).

Definition safeDump (v : value) : result string :=
  if value_eqb v written then Ok document_yaml
  else Throw (Error "YAMLException" (VStr "value outside the table")).


End MoreExamples.

(** * Properties *)

Import JS.

(** ** Values and objects *)

Lemma kind_eqb_eq (a b : kind) : kind_eqb a b = true <-> a = b.
Proof. destruct a, b; simpl; split; congruence. Qed.

Lemma native_eqb_eq (a b : native) : native_eqb a b = true <-> a = b.
Proof.
  destruct a as [x|x|x n], b as [y|y|y m]; simpl;
    try (split; congruence);
    try (rewrite kind_eqb_eq; split; congruence).
  rewrite andb_true_iff, kind_eqb_eq, String.eqb_eq.
  split; [intros [-> ->]; reflexivity | intros [= -> ->]; now split].
Qed.

Lemma value_eqb_refl (v : value) : value_eqb v v = true.
Proof.
  induction v using value_ind'; simpl; auto.
  - apply Bool.eqb_reflx.
  - apply Z.eqb_refl.
  - apply String.eqb_refl.
  - induction H as [|x l Hx _ IH]; [reflexivity|].
    now rewrite Hx, IH.
  - induction H as [|[k x] l Hx _ IH]; [reflexivity|].
    simpl in Hx. now rewrite String.eqb_refl, Hx, IH.
  - now apply native_eqb_eq.
Qed.

Lemma value_eqb_eq (a b : value) : value_eqb a b = true <-> a = b.
Proof.
  split; [|intros <-; apply value_eqb_refl].
  revert b.
  induction a using value_ind'; intros [] E; simpl in E;
    try discriminate; try reflexivity.
  - apply Bool.eqb_prop in E. now subst.
  - apply Z.eqb_eq in E. now subst.
  - apply String.eqb_eq in E. now subst.
  - f_equal. revert xs0 E.
    induction H as [|x l Hx _ IH]; intros [|y l'] E;
      try discriminate; [reflexivity|].
    apply andb_true_iff in E as [E1 E2].
    f_equal; [now apply Hx | now apply IH].
  - f_equal. revert fs0 E.
    induction H as [|[k x] l Hx _ IH]; intros [|[k' y] l'] E;
      try discriminate; [reflexivity|].
    apply andb_true_iff in E as [E1 E2].
    apply andb_true_iff in E1 as [E0 E1].
    apply String.eqb_eq in E0. simpl in Hx.
    f_equal; [f_equal; [assumption | now apply Hx] | now apply IH].
  - apply native_eqb_eq in E. now subst.
Qed.

Lemma value_eqb_neq (a b : value) : value_eqb a b = false <-> a <> b.
Proof.
  rewrite <- value_eqb_eq. destruct (value_eqb a b); split; congruence.
Qed.

Lemma value_eqb_sym (a b : value) : value_eqb a b = value_eqb b a.
Proof.
  destruct (value_eqb a b) eqn:E.
  - apply value_eqb_eq in E as ->. symmetry. apply value_eqb_refl.
  - symmetry. apply value_eqb_neq. apply value_eqb_neq in E. congruence.
Qed.

Lemma lookup_set (k k' : string) (v : value) (fs : list (string * value)) :
  lookup k (set k' v fs) = if String.eqb k k' then Some v else lookup k fs.
Proof.
  induction fs as [|[k0 v0] fs IH]; simpl.
  - reflexivity.
  - destruct (String.eqb k' k0) eqn:E0; simpl.
    + apply String.eqb_eq in E0 as <-.
      now destruct (String.eqb k k').
    + rewrite IH. destruct (String.eqb k k0) eqn:E1; [|reflexivity].
      apply String.eqb_eq in E1 as ->.
      rewrite String.eqb_sym, E0. reflexivity.
Qed.

(** [(x || d) || d] is [x || d]. *)
Lemma or_idem (x d : value) : or (or x d) d = or x d.
Proof.
  unfold or. destruct (truthy x) eqn:E.
  - now rewrite E.
  - now destruct (truthy d).
Qed.

Lemma or_defined (x d : value) : d <> VUndefined -> or x d <> VUndefined.
Proof.
  unfold or. destruct x; simpl; try congruence;
    match goal with |- context [if ?b then _ else _] => destruct b end;
    congruence.
Qed.

(** ** The constructor of [JobProtocol] *)

Lemma construct_to_object (props : value) :
  JobProtocol.construct (JobProtocol.to_object (JobProtocol.construct props))
  = JobProtocol.construct props.
Proof.
  unfold JobProtocol.construct at 1. unfold JobProtocol.to_object.
  unfold prop. simpl. rewrite !or_idem. reflexivity.
Qed.

(** C8: the constructor does not throw on a field bundle, every field
    of the document it builds is defined, and a field the bundle lacks
    gets its default: the empty string for [name], [description] and
    [contributor], 0 for [jobRetryCount], the empty sequence for
    [prerequisites], the empty mapping for [parameters], [taskRoles],
    [deployments], [secrets], [defaults] and [extras]. *)
Theorem constructor_total_and_defined (fs : list (string * value)) :
  exists d,
    JobProtocol.new (VObj fs) = Ok d
    /\ Forall (fun kv => snd kv <> VUndefined)
         (own_props (JobProtocol.to_object d))
    /\ (lookup "name" fs = None -> JobProtocol.name d = VStr "")
    /\ (lookup "description" fs = None -> JobProtocol.description d = VStr "")
    /\ (lookup "contributor" fs = None -> JobProtocol.contributor d = VStr "")
    /\ (lookup "jobRetryCount" fs = None -> JobProtocol.jobRetryCount d = VNum 0)
    /\ (lookup "prerequisites" fs = None -> JobProtocol.prerequisites d = VArr [])
    /\ (lookup "parameters" fs = None -> JobProtocol.parameters d = VObj [])
    /\ (lookup "taskRoles" fs = None -> JobProtocol.taskRoles d = VObj [])
    /\ (lookup "deployments" fs = None -> JobProtocol.deployments d = VObj [])
    /\ (lookup "secrets" fs = None -> JobProtocol.secrets d = VObj [])
    /\ (lookup "defaults" fs = None -> JobProtocol.defaults d = VObj [])
    /\ (lookup "extras" fs = None -> JobProtocol.extras d = VObj []).
Proof.
  exists (JobProtocol.construct (VObj fs)).
  split; [reflexivity|].
  split.
  - simpl. repeat constructor; simpl;
      solve [discriminate | apply or_defined; discriminate].
  - unfold JobProtocol.construct, prop; simpl.
    repeat split; intros ->; reflexivity.
Qed.

(** The bundle [{name: "job1"}]: every other field is absent. *)
Lemma constructor_total_and_defined_witness :
  exists d,
    JobProtocol.new (VObj [("name", VStr "job1")]) = Ok d
    /\ JobProtocol.name d = VStr "job1"
    /\ JobProtocol.description d = VStr ""
    /\ JobProtocol.jobRetryCount d = VNum 0
    /\ JobProtocol.prerequisites d = VArr []
    /\ JobProtocol.extras d = VObj [].
Proof.
  destruct (constructor_total_and_defined [("name", VStr "job1")])
    as (d & Hnew & _ & _ & Hdesc & _ & Hretry & Hpre & _ & _ & _ & _ & _ & Hext).
  exists d. split; [exact Hnew|].
  split; [injection Hnew as <-; reflexivity|].
  split; [apply Hdesc; reflexivity|].
  split; [apply Hretry; reflexivity|].
  split; [apply Hpre; reflexivity|].
  apply Hext; reflexivity.
Defined.

(** C10: whatever the input says about [protocolVersion] and [type],
    a document built by the constructor has [protocolVersion] 2 and
    [type] ["job"]; so has every document that [fromYaml] returns and
    the document that [getUpdatedProtocol] returns, which it always
    does. *)
Theorem protocolVersion_and_type_fixed :
  (forall props d,
      JobProtocol.new props = Ok d ->
      JobProtocol.protocolVersion d = VNum 2 /\ JobProtocol.type d = VStr "job")
  /\ (forall safeLoad protocolYaml d,
         JobProtocol.fromYaml safeLoad protocolYaml = JobProtocol.Return d ->
         JobProtocol.protocolVersion d = VNum 2
         /\ JobProtocol.type d = VStr "job")
  /\ (forall this jobBasicInfo jobTaskRoles jobParameters jobSecrets,
         exists d,
           JobProtocol.getUpdatedProtocol this jobBasicInfo jobTaskRoles
             jobParameters jobSecrets = Ok d
           /\ JobProtocol.protocolVersion d = VNum 2
           /\ JobProtocol.type d = VStr "job").
Proof.
  assert (Hnew : forall props d,
             JobProtocol.new props = Ok d ->
             JobProtocol.protocolVersion d = VNum 2
             /\ JobProtocol.type d = VStr "job").
  { intros props d. unfold JobProtocol.new.
    destruct (isNil props); [discriminate|].
    intros [= <-]. split; reflexivity. }
  split; [exact Hnew|]. split.
  - intros safeLoad protocolYaml d. unfold JobProtocol.fromYaml.
    destruct (safeLoad protocolYaml) as [v|e]; simpl; [|discriminate].
    destruct (JobProtocol.new v) as [d'|e] eqn:E; simpl; [|discriminate].
    intros [= <-]. exact (Hnew _ _ E).
  - intros. eexists. split; [reflexivity|]. split; reflexivity.
Qed.

(** A bundle that asks for version 3 and type ["task"]. *)
Lemma protocolVersion_and_type_fixed_witness :
  exists d,
    JobProtocol.new Examples.bundle_v3 = Ok d
    /\ JobProtocol.protocolVersion d = VNum 2
    /\ JobProtocol.type d = VStr "job".
Proof.
  exists (JobProtocol.construct Examples.bundle_v3).
  split; [reflexivity|].
  exact (proj1 protocolVersion_and_type_fixed Examples.bundle_v3 _ eq_refl).
Defined.

(** ** [DockerInfo]: resolving and re-emitting a secret reference *)

Lemma new_from_literal (e : DockerInfo.env) (a s : value)
    (fs : list (string * value)) :
  exists d,
    DockerInfo.new e (VObj (set "secretRef" s (set "auth" a fs))) = Ok d
    /\ DockerInfo.auth d = or a (VObj [])
    /\ DockerInfo.secretRef d
       = if negb (Lodash.isEmpty s) then s else VStr "".
Proof.
  eexists. split; [reflexivity|].
  unfold prop, own_props. simpl. rewrite !lookup_set. simpl. split; reflexivity.
Qed.

(** C1 does not hold with the key name: after [fromProtocol] on
    [{auth: {password: "<% $secrets.k1 %>"}}] with secrets
    [{k1: "hunter2"}], [secretRef] is not the key name ["k1"]. *)
Lemma fromProtocol_secretRef_not_key_name :
  ~ (exists d,
        DockerInfo.fromProtocol Examples.env Examples.raw_k1 Examples.secrets_k1
        = Ok d
        /\ prop "password" (DockerInfo.auth d) = VStr "hunter2"
        /\ DockerInfo.secretRef d = VStr "k1"
        /\ prop "password" (prop "auth" (DockerInfo.convertToProtocolFormat d))
           = VStr Examples.token_k1).
Proof.
  intros (d & Hd & _ & Hs & _).
  vm_compute in Hd. injection Hd as <-. discriminate Hs.
Qed.

(** C1, amended: [fromProtocol] resolves the password to ["hunter2"]
    and keeps the whole reference token ["<% $secrets.k1 %>"] in
    [secretRef]; [convertToProtocolFormat] then writes that token, not
    ["hunter2"], into [auth.password]. *)
Theorem fromProtocol_resolves_and_keeps_token (e : DockerInfo.env) :
  exists d,
    DockerInfo.fromProtocol e Examples.raw_k1 Examples.secrets_k1 = Ok d
    /\ prop "password" (DockerInfo.auth d) = VStr "hunter2"
    /\ DockerInfo.secretRef d = VStr "<% $secrets.k1 %>"
    /\ prop "password" (prop "auth" (DockerInfo.convertToProtocolFormat d))
       = VStr "<% $secrets.k1 %>"
    /\ prop "password" (prop "auth" (DockerInfo.convertToProtocolFormat d))
       <> VStr "hunter2".
Proof.
  eexists. split; [vm_compute; reflexivity|].
  repeat split; try reflexivity. discriminate.
Qed.

(** When the password read from the raw prerequisite does not match
    the pattern, or matches with a key that the secret mapping neither
    has nor inherits, [fromProtocol] does not throw and returns a
    reference with [auth] the empty mapping and [secretRef] the empty
    string. *)
Lemma fromProtocol_drops_dangling
    (e : DockerInfo.env) (dockerInfoProtocol secrets : value) :
  let password := Lodash.get dockerInfoProtocol "auth.password" (VStr "") in
  RegExp.exec DockerInfo.SECRET_PATTERN password = VNull
  \/ (exists whole key fs,
         RegExp.exec DockerInfo.SECRET_PATTERN password
         = VArr [VStr whole; VStr key]
         /\ secrets = VObj fs
         /\ lookup key fs = None
         /\ inherited key (VObj fs) = VUndefined) ->
  exists d,
    DockerInfo.fromProtocol e dockerInfoProtocol secrets = Ok d
    /\ DockerInfo.auth d = VObj []
    /\ DockerInfo.secretRef d = VStr "".
Proof.
  intros password H. unfold DockerInfo.fromProtocol. fold password.
  destruct (Lodash.isNil password) eqn:Enil; simpl.
  - destruct (new_from_literal e VUndefined password
                (assign [] dockerInfoProtocol)) as (d & Hd & Ha & Hs).
    exists d. split; [exact Hd|]. split; [exact Ha|].
    rewrite Hs. destruct password; try discriminate; reflexivity.
  - destruct (new_from_literal e (VObj []) (VStr "")
                (assign [] dockerInfoProtocol)) as (d & Hd & Ha & Hs).
    exists d. split; [|split; [exact Ha | exact Hs]].
    rewrite <- Hd.
    destruct H as [-> | (whole & key & fs & -> & -> & Hk & Hinh)].
    + reflexivity.
    + cbn [Lodash.isEmpty]. unfold member at 1. cbn [isNil bind].
      change (prop "1" (VArr [VStr whole; VStr key])) with (VStr key).
      cbn [Lodash.isEmpty ToString].
      destruct (String.eqb key "") eqn:Ek; cbn [negb bind]; [reflexivity|].
      unfold member, prop. cbn [own_props isNil]. rewrite Hk, Hinh.
      now destruct (String.eqb key "length").
Qed.

(** C3: the empty secret mapping has no key [constructor], yet for
    the password ["<% $secrets.constructor %>"] the read
    [secrets[secretKey]] finds the inherited [constructor] of the
    mapping: [fromProtocol] returns a reference whose [auth.password]
    is the built-in [Object] and whose [secretRef] is the token, not a
    reference without credential. *)
Theorem fromProtocol_inherited_key_resolves :
  exists d,
    DockerInfo.fromProtocol Examples.env
      (with_password "<% $secrets.constructor %>") (VObj []) = Ok d
    /\ RegExp.exec DockerInfo.SECRET_PATTERN
         (VStr "<% $secrets.constructor %>")
       = VArr [VStr "<% $secrets.constructor %>"; VStr "constructor"]
    /\ lookup "constructor" [] = None
    /\ DockerInfo.auth d = VObj [("password", VNative (Constructor KObject))]
    /\ DockerInfo.secretRef d = VStr "<% $secrets.constructor %>"
    /\ DockerInfo.auth d <> VObj []
    /\ DockerInfo.secretRef d <> VStr "".
Proof.
  eexists. split; [vm_compute; reflexivity|].
  repeat split; try reflexivity; discriminate.
Qed.

(** ** [getUpdatedProtocol]: the computed fields reach the document *)

Ltac eval_key_tests :=
  repeat match goal with
    | |- context [String.eqb ?a ?b] =>
        let r := eval vm_compute in (String.eqb a b) in
        match r with
        | true => change (String.eqb a b) with true
        | false => change (String.eqb a b) with false
        end
    end;
  cbv iota.

Lemma getUpdatedProtocol_fields (this : JobProtocol.t)
    (jobBasicInfo : JobBasicInfo.t) (jobTaskRoles : list TaskRole.t)
    (jobParameters jobSecrets : list KeyValue.t) :
  exists d,
    JobProtocol.getUpdatedProtocol this jobBasicInfo jobTaskRoles
      jobParameters jobSecrets = Ok d
    /\ JobProtocol.parameters d
       = or (JobProtocol.edits_mapping jobParameters) (VObj [])
    /\ JobProtocol.secrets d
       = or (JobProtocol.edits_mapping jobSecrets) (VObj [])
    /\ JobProtocol.prerequisites d
       = or (JobProtocol._getTaskRolesPrerequisites jobTaskRoles) (VArr []).
Proof.
  eexists. split; [reflexivity|].
  unfold JobProtocol.construct, prop, own_props.
  cbn [JobProtocol.parameters JobProtocol.secrets JobProtocol.prerequisites].
  rewrite !lookup_set. eval_key_tests.
  repeat split; reflexivity.
Qed.

(** ** [_getTaskRolesPrerequisites]: one prerequisite per name *)

Lemma memb_In (x : value) (l : list value) : memb x l = true <-> In x l.
Proof.
  unfold memb. rewrite existsb_exists. split.
  - intros (y & Hy & E). apply value_eqb_eq in E. now subst.
  - intros H. exists x. split; [assumption | apply value_eqb_refl].
Qed.

Lemma filter_filter {A} (f g : A -> bool) (l : list A) :
  List.filter f (List.filter g l) = List.filter (fun x => g x && f x) l.
Proof.
  induction l as [|a l IH]; simpl; [reflexivity|].
  destruct (g a); simpl; [destruct (f a)|]; now rewrite IH.
Qed.

Lemma filter_all {A} (f : A -> bool) (l : list A) :
  (forall x, In x l -> f x = true) -> List.filter f l = l.
Proof.
  induction l as [|a l IH]; simpl; intros H; [reflexivity|].
  rewrite (H a (or_introl eq_refl)). f_equal. apply IH. auto.
Qed.

Lemma first_seen_In (x : value) (l : list value) :
  In x (first_seen l) <-> In x l.
Proof.
  induction l as [|n l IH]; simpl; [tauto|].
  rewrite filter_In, IH.
  destruct (value_eqb x n) eqn:E.
  - apply value_eqb_eq in E. subst. intuition.
  - apply value_eqb_neq in E. intuition congruence.
Qed.

Lemma first_seen_NoDup (l : list value) : NoDup (first_seen l).
Proof.
  induction l as [|n l IH]; simpl; constructor.
  - rewrite filter_In, value_eqb_refl. intros [_ H]. discriminate.
  - now apply NoDup_filter.
Qed.

Lemma JSMap_keys_set (k v : value) (m : JSMap.t) :
  JSMap.keys (JSMap.set k v m)
  = if memb k (JSMap.keys m) then JSMap.keys m else (JSMap.keys m ++ [k])%list.
Proof.
  induction m as [|[k' v'] m IH]; simpl; [reflexivity|].
  destruct (value_eqb k k') eqn:E; simpl.
  - apply value_eqb_eq in E. now subst.
  - rewrite IH. unfold memb. now destruct (existsb (value_eqb k) (JSMap.keys m)).
Qed.

Lemma JSMap_get_set (k k' v : value) (m : JSMap.t) :
  JSMap.get k (JSMap.set k' v m)
  = if value_eqb k k' then Some v else JSMap.get k m.
Proof.
  induction m as [|[k0 v0] m IH]; simpl; [reflexivity|].
  destruct (value_eqb k' k0) eqn:E0; simpl.
  - apply value_eqb_eq in E0 as <-. now destruct (value_eqb k k').
  - rewrite IH. destruct (value_eqb k k0) eqn:E1; [|reflexivity].
    apply value_eqb_eq in E1 as ->.
    now rewrite value_eqb_sym, E0.
Qed.

Lemma JSMap_get_In (k v : value) (m : JSMap.t) :
  NoDup (JSMap.keys m) -> In (k, v) m -> JSMap.get k m = Some v.
Proof.
  induction m as [|[k0 v0] m IH]; simpl; intros Hnd Hin; [contradiction|].
  inversion Hnd as [|? ? Hnotin Hnd']; subst.
  destruct Hin as [[= -> ->] | Hin].
  - now rewrite value_eqb_refl.
  - destruct (value_eqb k k0) eqn:E; [|now apply IH].
    apply value_eqb_eq in E as ->. exfalso. apply Hnotin.
    change k0 with (fst (k0, v)). now apply in_map.
Qed.

Section Prerequisites.
(** The callback of [prerequisites.forEach]. *)
Let step (map : JSMap.t) (value : value) : JSMap.t :=
  JSMap.set (prop "name" value) value map.

Lemma keys_forEach (ps : list value) (m : JSMap.t) :
  JSMap.keys (fold_left step ps m)
  = (JSMap.keys m
     ++ List.filter (fun n => negb (memb n (JSMap.keys m)))
          (first_seen (List.map (prop "name") ps)))%list.
Proof.
  revert m. induction ps as [|p ps IH]; intros m.
  - simpl. now rewrite app_nil_r.
  - cbn [fold_left List.map first_seen]. rewrite IH. unfold step.
    rewrite JSMap_keys_set.
    set (n := prop "name" p). set (km := JSMap.keys m).
    set (L := first_seen (List.map (prop "name") ps)).
    destruct (memb n km) eqn:E; cbn [List.filter]; rewrite E; cbn [negb].
    + f_equal. rewrite filter_filter. apply filter_ext. intros x.
      destruct (value_eqb x n) eqn:Ex; [|reflexivity].
      apply value_eqb_eq in Ex as ->. now rewrite E.
    + rewrite <- app_assoc. cbn [app]. do 2 f_equal.
      rewrite filter_filter. apply filter_ext. intros x.
      unfold memb. rewrite existsb_app. cbn [existsb].
      rewrite orb_false_r, negb_orb. apply andb_comm.
Qed.

Lemma get_forEach (k : value) (ps : list value) (m : JSMap.t) :
  JSMap.get k (fold_left step ps m)
  = match last_named k ps with
    | Some p => Some p
    | None => JSMap.get k m
    end.
Proof.
  revert m. induction ps as [|p ps IH]; intros m; [reflexivity|].
  cbn [fold_left last_named]. rewrite IH.
  destruct (last_named k ps); [reflexivity|].
  unfold step. rewrite JSMap_get_set, value_eqb_sym.
  now destruct (value_eqb (prop "name" p) k).
Qed.

Lemma last_named_name (n p : value) (ps : list value) :
  last_named n ps = Some p -> prop "name" p = n /\ In p ps.
Proof.
  induction ps as [|q ps IH]; simpl; [discriminate|].
  destruct (last_named n ps).
  - intros [= ->]. destruct IH as [? ?]; auto.
  - destruct (value_eqb (prop "name" q) n) eqn:E; [|discriminate].
    intros [= ->]. apply value_eqb_eq in E. auto.
Qed.

Lemma forEach_entries (ps : list value) (k v : value) :
  In (k, v) (fold_left step ps []) -> last_named k ps = Some v.
Proof.
  intros Hin.
  assert (Hnd : NoDup (JSMap.keys (fold_left step ps []))).
  { rewrite keys_forEach. cbn [JSMap.keys List.map app].
    apply NoDup_filter, first_seen_NoDup. }
  pose proof (JSMap_get_In _ _ _ Hnd Hin) as Hget.
  rewrite get_forEach in Hget. cbn [JSMap.get] in Hget.
  now destruct (last_named k ps).
Qed.
End Prerequisites.

(** C4: the prerequisites that [_getTaskRolesPrerequisites] returns,
    and that [getUpdatedProtocol] puts into the document, carry the
    distinct names of the roles' prerequisites in first-seen order,
    each name once, and the prerequisite kept for a name is the last
    one of the roles' prerequisites with that name. *)
Theorem prerequisites_deduplicated (jobTaskRoles : list TaskRole.t) :
  let prerequisites :=
    List.map (fun taskRole => VObj (TaskRole.getDockerPrerequisite taskRole))
      jobTaskRoles in
  exists result,
    JobProtocol._getTaskRolesPrerequisites jobTaskRoles = VArr result
    /\ List.map (prop "name") result
       = first_seen (List.map (prop "name") prerequisites)
    /\ NoDup (List.map (prop "name") result)
    /\ (forall n,
           In n (List.map (prop "name") result)
           <-> In n (List.map (prop "name") prerequisites))
    /\ (forall p,
           In p result -> last_named (prop "name" p) prerequisites = Some p)
    /\ (forall this jobBasicInfo jobParameters jobSecrets,
           exists d,
             JobProtocol.getUpdatedProtocol this jobBasicInfo jobTaskRoles
               jobParameters jobSecrets = Ok d
             /\ JobProtocol.prerequisites d = VArr result).
Proof.
  intros prerequisites.
  set (step := fun (map : JSMap.t) (value : value) =>
                 JSMap.set (prop "name" value) value map).
  set (m := fold_left step prerequisites []).
  assert (Hentries : forall kv, In kv m -> prop "name" (snd kv) = fst kv
                                           /\ last_named (fst kv) prerequisites
                                              = Some (snd kv)).
  { intros [k v] Hin. apply forEach_entries in Hin. cbn [fst snd].
    split; [|assumption]. now apply last_named_name in Hin. }
  assert (Hnames : List.map (prop "name") (JSMap.values m)
                   = first_seen (List.map (prop "name") prerequisites)).
  { transitivity (JSMap.keys m).
    - unfold JSMap.values, JSMap.keys. rewrite map_map.
      apply map_ext_in. intros kv Hin. now apply Hentries.
    - unfold m. rewrite keys_forEach. cbn [JSMap.keys List.map app].
      apply filter_all. reflexivity. }
  exists (JSMap.values m).
  split; [reflexivity|].
  split; [exact Hnames|].
  split; [rewrite Hnames; apply first_seen_NoDup|].
  split; [intros n; rewrite Hnames; apply first_seen_In|].
  split.
  - intros p Hin. unfold JSMap.values in Hin.
    apply in_map_iff in Hin as (kv & <- & Hin).
    destruct (Hentries kv Hin) as [-> H]. exact H.
  - intros.
    destruct (getUpdatedProtocol_fields this jobBasicInfo jobTaskRoles
                jobParameters jobSecrets) as (d & Hd & _ & _ & Hp).
    exists d. split; [exact Hd|]. rewrite Hp. reflexivity.
Qed.

(** Roles [A], [B], [A']: one prerequisite named ["img"] is left, and
    it is the one of [A']. *)
Lemma prerequisites_deduplicated_witness :
  exists result,
    JobProtocol._getTaskRolesPrerequisites Examples.roles_A_B_A' = VArr result
    /\ List.map (prop "name") result = [VStr "img"; VStr "other"]
    /\ (forall p,
           In p result -> prop "name" p = VStr "img" ->
           p = VObj (TaskRole.getDockerPrerequisite
                       (Examples.role "A2" "img" "ubuntu:18.04"))).
Proof.
  destruct (prerequisites_deduplicated Examples.roles_A_B_A')
    as (result & Hres & Hnames & _ & _ & Hlast & _).
  exists result. split; [exact Hres|]. split; [exact Hnames|].
  intros p Hin Hname. apply Hlast in Hin. rewrite Hname in Hin.
  vm_compute in Hin. now injection Hin as <-.
Defined.

(** ** Pruning *)

Lemma removeEmptyProperties_obj (fs : list (string * value)) :
  Utils.removeEmptyProperties (VObj fs) = VObj (pruned_fields fs).
Proof. reflexivity. Qed.

Lemma pruned_fields_cons (k : string) (x : value) (l : list (string * value)) :
  pruned_fields ((k, x) :: l)
  = if Utils.empty_prunable (Utils.removeEmptyProperties x)
    then pruned_fields l
    else (k, Utils.removeEmptyProperties x) :: pruned_fields l.
Proof. reflexivity. Qed.

Lemma no_empty_fields_cons (k : string) (x : value) (l : list (string * value)) :
  no_empty_fields (VObj ((k, x) :: l))
  = negb (Utils.empty_prunable x) && no_empty_fields x
    && no_empty_fields (VObj l).
Proof. reflexivity. Qed.

(** What pruning returns has no empty field left. *)
Lemma removeEmptyProperties_no_empty_fields (v : value) :
  no_empty_fields (Utils.removeEmptyProperties v) = true.
Proof.
  induction v using value_ind'; try reflexivity.
  - cbn [Utils.removeEmptyProperties no_empty_fields].
    induction H as [|x l Hx _ IH]; [reflexivity|].
    cbn [List.map forallb]. now rewrite Hx, IH.
  - rewrite removeEmptyProperties_obj.
    induction H as [|[k x] l Hx _ IH]; [reflexivity|].
    rewrite pruned_fields_cons. cbn [snd] in Hx.
    destruct (Utils.empty_prunable (Utils.removeEmptyProperties x)) eqn:E;
      [exact IH|].
    now rewrite no_empty_fields_cons, E, Hx, IH.
Qed.

(** Pruning leaves a value without empty fields as it is. *)
Lemma removeEmptyProperties_id (v : value) :
  no_empty_fields v = true -> Utils.removeEmptyProperties v = v.
Proof.
  induction v using value_ind'; try reflexivity.
  - cbn [Utils.removeEmptyProperties no_empty_fields]. intros Hne. f_equal.
    induction H as [|x l Hx _ IH]; [reflexivity|].
    cbn [forallb] in Hne. apply andb_true_iff in Hne as [H1 H2].
    cbn [List.map]. now rewrite Hx, IH.
  - rewrite removeEmptyProperties_obj. intros Hne. f_equal.
    induction H as [|[k x] l Hx _ IH]; [reflexivity|].
    rewrite no_empty_fields_cons in Hne.
    apply andb_true_iff in Hne as [Hne H3].
    apply andb_true_iff in Hne as [H1 H2].
    cbn [snd] in Hx. rewrite pruned_fields_cons, (Hx H2).
    apply negb_true_iff in H1. rewrite H1. now rewrite (IH H3).
Qed.

Lemma pruned_fields_keys (k : string) (fs : list (string * value)) :
  In k (List.map fst (pruned_fields fs)) -> In k (List.map fst fs).
Proof.
  induction fs as [|[k0 x] l IH]; [exact (fun H => H)|].
  rewrite pruned_fields_cons.
  destruct (Utils.empty_prunable (Utils.removeEmptyProperties x)); simpl; tauto.
Qed.

Lemma pruned_fields_NoDup (fs : list (string * value)) :
  NoDup (List.map fst fs) -> NoDup (List.map fst (pruned_fields fs)).
Proof.
  induction fs as [|[k0 x] l IH]; [exact (fun H => H)|].
  intros Hnd. inversion Hnd as [|? ? Hnotin Hnd']; subst.
  rewrite pruned_fields_cons.
  destruct (Utils.empty_prunable (Utils.removeEmptyProperties x)); [auto|].
  simpl. constructor; [|auto].
  intros Hin. apply Hnotin. now apply pruned_fields_keys.
Qed.

Lemma lookup_None (k : string) (fs : list (string * value)) :
  ~ In k (List.map fst fs) -> lookup k fs = None.
Proof.
  induction fs as [|[k0 x] l IH]; simpl; [reflexivity|].
  intros Hnotin. destruct (String.eqb k k0) eqn:E.
  - apply String.eqb_eq in E. subst. tauto.
  - apply IH. tauto.
Qed.

Lemma lookup_pruned_fields (k : string) (fs : list (string * value)) :
  NoDup (List.map fst fs) ->
  lookup k (pruned_fields fs)
  = match lookup k fs with
    | Some x =>
        if Utils.empty_prunable (Utils.removeEmptyProperties x) then None
        else Some (Utils.removeEmptyProperties x)
    | None => None
    end.
Proof.
  induction fs as [|[k0 x] l IH]; [reflexivity|].
  intros Hnd. inversion Hnd as [|? ? Hnotin Hnd']; subst.
  rewrite pruned_fields_cons. cbn [lookup].
  destruct (String.eqb k k0) eqn:E.
  - apply String.eqb_eq in E as ->.
    destruct (Utils.empty_prunable (Utils.removeEmptyProperties x)).
    + rewrite (IH Hnd'), (lookup_None _ _ Hnotin). reflexivity.
    + cbn [lookup]. now rewrite String.eqb_refl.
  - destruct (Utils.empty_prunable (Utils.removeEmptyProperties x));
      [|cbn [lookup]; rewrite E]; exact (IH Hnd').
Qed.

(** ** The mapping of a key/value table *)

Section Edits.
(** One step of the reduction: [{...acc, ...param}], where [param] is
    what the assignment [param[key] = value] made of [{}]. *)
Let put (acc : list (string * value)) (e : KeyValue.t) :=
  if String.eqb (ToString (KeyValue.key e)) "__proto__" then acc
  else set (ToString (KeyValue.key e)) (KeyValue.value e) acc.

Lemma reduce_edits (edits : list KeyValue.t) (fs : list (string * value)) :
  Utils.reduce Utils.keyValueArrayReducer
    (List.map
       (fun e => JobProtocol.singleton (KeyValue.key e) (KeyValue.value e))
       edits)
    (VObj fs)
  = VObj (fold_left put edits fs).
Proof.
  revert fs. induction edits as [|e edits IH]; intros fs; [reflexivity|].
  unfold Utils.reduce in *. cbn [List.map fold_left].
  replace (Utils.keyValueArrayReducer (VObj fs)
             (JobProtocol.singleton (KeyValue.key e) (KeyValue.value e)))
    with (VObj (put fs e)); [exact (IH _)|].
  unfold put, Utils.keyValueArrayReducer, JobProtocol.singleton,
    assign_to_empty.
  now destruct (String.eqb (ToString (KeyValue.key e)) "__proto__").
Qed.

Lemma lookup_edits (k : string) (edits : list KeyValue.t)
    (fs : list (string * value)) :
  k <> "__proto__"%string ->
  lookup k (fold_left put edits fs)
  = match last_edit k edits with
    | Some v => Some v
    | None => lookup k fs
    end.
Proof.
  intros Hk.
  revert fs. induction edits as [|e edits IH]; intros fs; [reflexivity|].
  cbn [fold_left last_edit]. rewrite IH.
  destruct (last_edit k edits); [reflexivity|].
  unfold put.
  destruct (String.eqb (ToString (KeyValue.key e)) "__proto__") eqn:E.
  - apply String.eqb_eq in E. rewrite E.
    apply String.eqb_neq in Hk. now rewrite String.eqb_sym, Hk.
  - rewrite lookup_set, String.eqb_sym.
    now destruct (String.eqb (ToString (KeyValue.key e)) k).
Qed.

(** A row with the key [__proto__] leaves no property. *)
Lemma lookup_edits_proto (edits : list KeyValue.t)
    (fs : list (string * value)) :
  lookup "__proto__" (fold_left put edits fs) = lookup "__proto__" fs.
Proof.
  revert fs. induction edits as [|e edits IH]; intros fs; [reflexivity|].
  cbn [fold_left]. rewrite IH. unfold put.
  destruct (String.eqb (ToString (KeyValue.key e)) "__proto__") eqn:E;
    [reflexivity|].
  now rewrite lookup_set, String.eqb_sym, E.
Qed.

Lemma set_keys_In (k k' : string) (v : value) (fs : list (string * value)) :
  In k' (List.map fst (set k v fs)) -> k' = k \/ In k' (List.map fst fs).
Proof.
  induction fs as [|[k0 x] l IH]; simpl.
  - intros [<-|[]]. now left.
  - destruct (String.eqb k k0) eqn:E; simpl.
    + apply String.eqb_eq in E as ->. tauto.
    + intros [<-|Hin]; [tauto|]. apply IH in Hin. tauto.
Qed.

Lemma set_keys (k : string) (v : value) (fs : list (string * value)) :
  NoDup (List.map fst fs) -> NoDup (List.map fst (set k v fs)).
Proof.
  induction fs as [|[k0 x] l IH]; simpl; intros Hnd.
  - constructor; [intros [] | constructor].
  - inversion Hnd as [|? ? Hnotin Hnd']; subst.
    destruct (String.eqb k k0) eqn:E; simpl.
    + apply String.eqb_eq in E as ->. now constructor.
    + constructor; [|auto]. intros Hin.
      apply set_keys_In in Hin as [->|Hin]; [|tauto].
      now rewrite String.eqb_refl in E.
Qed.

Lemma edits_keys (edits : list KeyValue.t) (fs : list (string * value)) :
  NoDup (List.map fst fs) -> NoDup (List.map fst (fold_left put edits fs)).
Proof.
  revert fs. induction edits as [|e edits IH]; intros fs Hnd; [exact Hnd|].
  cbn [fold_left]. apply IH. unfold put.
  destruct (String.eqb (ToString (KeyValue.key e)) "__proto__");
    [exact Hnd | now apply set_keys].
Qed.
End Edits.

(** The mapping that [getUpdatedProtocol] makes of a key/value table
    has each key once and no key [__proto__]; any other key is bound
    to the value of the last row with that key, pruned, unless that
    value is empty, in which case the key is absent. *)
Lemma edits_mapping_lookup (edits : list KeyValue.t) :
  exists fs,
    JobProtocol.edits_mapping edits = VObj fs
    /\ NoDup (List.map fst fs)
    /\ lookup "__proto__" fs = None
    /\ (forall k,
           k <> "__proto__"%string ->
           lookup k fs
           = match last_edit k edits with
             | Some v =>
                 if Utils.empty_prunable (Utils.removeEmptyProperties v)
                 then None
                 else Some (Utils.removeEmptyProperties v)
             | None => None
             end).
Proof.
  set (put := fun (acc : list (string * value)) (e : KeyValue.t) =>
                if String.eqb (ToString (KeyValue.key e)) "__proto__" then acc
                else set (ToString (KeyValue.key e)) (KeyValue.value e) acc).
  assert (Hnd : NoDup (List.map fst (fold_left put edits []))).
  { apply edits_keys. constructor. }
  exists (pruned_fields (fold_left put edits [])).
  split; [|split; [|split]].
  - unfold JobProtocol.edits_mapping. now rewrite reduce_edits.
  - now apply pruned_fields_NoDup.
  - now rewrite (lookup_pruned_fields _ _ Hnd), lookup_edits_proto.
  - intros k Hk. rewrite (lookup_pruned_fields _ _ Hnd), lookup_edits by exact Hk.
    now destruct (last_edit k edits).
Qed.

(** C5: the rows [[{key: "__proto__", value: "1"}]] have a last row
    for the key [__proto__] with a value that is not empty, yet the
    mapping that [getUpdatedProtocol] makes of them as parameters, and
    as secrets, is empty: the assignment [param[parameter.key] = ...]
    meets the setter of [Object.prototype] and the row is lost. *)
Theorem edits_proto_row_lost :
  last_edit "__proto__" [Examples.row "__proto__" "1"] = Some (VStr "1")
  /\ JobProtocol.edits_mapping [Examples.row "__proto__" "1"] = VObj []
  /\ (forall this jobBasicInfo jobTaskRoles jobSecrets,
         exists d,
           JobProtocol.getUpdatedProtocol this jobBasicInfo jobTaskRoles
             [Examples.row "__proto__" "1"] jobSecrets = Ok d
           /\ JobProtocol.parameters d = VObj [])
  /\ (forall this jobBasicInfo jobTaskRoles jobParameters,
         exists d,
           JobProtocol.getUpdatedProtocol this jobBasicInfo jobTaskRoles
             jobParameters [Examples.row "__proto__" "1"] = Ok d
           /\ JobProtocol.secrets d = VObj []).
Proof.
  split; [reflexivity|]. split; [reflexivity|]. split.
  - intros.
    destruct (getUpdatedProtocol_fields this jobBasicInfo jobTaskRoles
                [Examples.row "__proto__" "1"] jobSecrets) as (d & Hd & Hp & _).
    exists d. split; [exact Hd | exact Hp].
  - intros.
    destruct (getUpdatedProtocol_fields this jobBasicInfo jobTaskRoles
                jobParameters [Examples.row "__proto__" "1"])
      as (d & Hd & _ & Hs & _).
    exists d. split; [exact Hd | exact Hs].
Qed.

(** For every other key the mapping is the fold of the rows: the rows
    [a=1], [a=2], [b=] give [{a: "2"}], and the mapping reaches the
    parameters and the secrets of the new document. *)
Lemma edits_mapping_reaches_document (edits : list KeyValue.t) :
  JobProtocol.edits_mapping Examples.edits_a_a_b = VObj [("a", VStr "2")]
  /\ (forall this jobBasicInfo jobTaskRoles jobSecrets,
         exists d,
           JobProtocol.getUpdatedProtocol this jobBasicInfo jobTaskRoles
             edits jobSecrets = Ok d
           /\ JobProtocol.parameters d = JobProtocol.edits_mapping edits)
  /\ (forall this jobBasicInfo jobTaskRoles jobParameters,
         exists d,
           JobProtocol.getUpdatedProtocol this jobBasicInfo jobTaskRoles
             jobParameters edits = Ok d
           /\ JobProtocol.secrets d = JobProtocol.edits_mapping edits).
Proof.
  destruct (edits_mapping_lookup edits) as (fs & Hmap & _).
  split; [reflexivity|]. split.
  - intros.
    destruct (getUpdatedProtocol_fields this jobBasicInfo jobTaskRoles
                edits jobSecrets) as (d & Hd & Hp & _).
    exists d. split; [exact Hd|]. now rewrite Hp, Hmap.
  - intros.
    destruct (getUpdatedProtocol_fields this jobBasicInfo jobTaskRoles
                jobParameters edits) as (d & Hd & _ & Hs & _).
    exists d. split; [exact Hd|]. now rewrite Hs, Hmap.
Qed.

(** ** Serialising and parsing *)

Section Yaml.
Variable safeLoad : string -> result value.
Variable safeDump : value -> result string.

(** js-yaml reads back what it has written. *)
Hypothesis safeLoad_safeDump :
  forall v text, safeDump v = Ok text -> safeLoad text = Ok v.

(** C6: the text that [toYaml] returns is the text of a value
    without any empty string, empty mapping or empty sequence as a
    field, at any depth, and parsing the text gives that value. *)
Theorem toYaml_no_empty_fields (d : JobProtocol.t) (text : string) :
  JobProtocol.toYaml safeDump d = JobProtocol.Return text ->
  exists v,
    safeDump v = Ok text
    /\ safeLoad text = Ok v
    /\ no_empty_fields v = true.
Proof.
  unfold JobProtocol.toYaml.
  destruct (safeDump (Utils.removeEmptyProperties (JobProtocol.to_object d)))
    as [text'|e] eqn:E; simpl; [|discriminate].
  intros [= ->].
  exists (Utils.removeEmptyProperties (JobProtocol.to_object d)).
  split; [exact E|]. split; [now apply safeLoad_safeDump|].
  apply removeEmptyProperties_no_empty_fields.
Qed.

(** C2: a document built by the constructor, with no empty field
    at any depth, is what [fromYaml] returns on the text that
    [toYaml] returns for it. *)
Theorem fromYaml_toYaml (props : value) (text : string) :
  let d := JobProtocol.construct props in
  no_empty_fields (JobProtocol.to_object d) = true ->
  JobProtocol.toYaml safeDump d = JobProtocol.Return text ->
  JobProtocol.fromYaml safeLoad text = JobProtocol.Return d.
Proof.
  intros d Hne. unfold JobProtocol.toYaml, JobProtocol.fromYaml.
  rewrite (removeEmptyProperties_id _ Hne).
  destruct (safeDump (JobProtocol.to_object d)) as [text'|e] eqn:E; simpl;
    [|discriminate].
  intros [= ->]. rewrite (safeLoad_safeDump _ _ E). simpl.
  unfold d. now rewrite construct_to_object.
Qed.
End Yaml.

Lemma table_safeLoad_safeDump (v : value) (text : string) :
  Examples.safeDump v = Ok text -> Examples.safeLoad text = Ok v.
Proof.
  unfold Examples.safeDump.
  destruct (value_eqb v (JobProtocol.to_object Examples.document)) eqn:E1.
  - apply value_eqb_eq in E1 as ->. now intros [= <-].
  - destruct (value_eqb v (VObj [("name", VNum 7)])) eqn:E2.
    + apply value_eqb_eq in E2 as ->. now intros [= <-].
    + discriminate.
Qed.

Lemma toYaml_no_empty_fields_witness :
  exists v,
    Examples.safeDump v = Ok Examples.document_yaml
    /\ Examples.safeLoad Examples.document_yaml = Ok v
    /\ no_empty_fields v = true.
Proof.
  apply (toYaml_no_empty_fields Examples.safeLoad Examples.safeDump
           table_safeLoad_safeDump Examples.document).
  reflexivity.
Defined.

Lemma fromYaml_toYaml_witness :
  JobProtocol.fromYaml Examples.safeLoad Examples.document_yaml
  = JobProtocol.Return Examples.document.
Proof.
  apply (fromYaml_toYaml Examples.safeLoad Examples.safeDump
           table_safeLoad_safeDump Examples.bundle_full).
  - reflexivity.
  - reflexivity.
Defined.

(** ** Validation *)

Lemma Error_toString_named (name : string) (m : value) :
  name <> "" -> JobProtocol.Error_toString (Error name m) <> "".
Proof.
  intros Hname. unfold JobProtocol.Error_toString.
  set (msg := match m with VUndefined => "" | _ => ToString m end).
  destruct (String.eqb name "") eqn:E.
  - apply String.eqb_eq in E. contradiction.
  - destruct (String.eqb msg "").
    + exact Hname.
    + destruct name; [contradiction | discriminate].
Qed.

Section Validation.
Variable safeLoad : string -> result value.
Variable validate : value -> result (option exn).

(** The messages of the exceptions of js-yaml and of Joi are not
    empty, and the errors that Joi reports are [ValidationError]s. *)
Hypothesis safeLoad_message :
  forall text e, safeLoad text = Throw e -> ToString (message e) <> "".
Hypothesis validate_message :
  forall v e, validate v = Throw e -> ToString (message e) <> "".
Hypothesis validate_error :
  forall v e, validate v = Ok (Some e) ->
              exists m, e = Error "ValidationError" m.

(** C7: [validateFromYaml] returns the empty string exactly when
    the text parses and the parsed document passes the schema; a
    parse error comes back as its message and a schema error as its
    string, both non-empty.  The function returns a string on every
    text. *)
Theorem validateFromYaml_empty_iff_valid (protocolYaml : string) :
  (JobProtocol.validateFromYaml safeLoad validate protocolYaml = ""
   <-> exists protocol,
        safeLoad protocolYaml = Ok protocol /\ validate protocol = Ok None)
  /\ (forall e,
         safeLoad protocolYaml = Throw e ->
         JobProtocol.validateFromYaml safeLoad validate protocolYaml
         = ToString (message e)
         /\ ToString (message e) <> "")
  /\ (forall protocol e,
         safeLoad protocolYaml = Ok protocol ->
         validate protocol = Ok (Some e) ->
         JobProtocol.validateFromYaml safeLoad validate protocolYaml
         = JobProtocol.Error_toString e
         /\ JobProtocol.Error_toString e <> "").
Proof.
  unfold JobProtocol.validateFromYaml.
  destruct (safeLoad protocolYaml) as [protocol|e] eqn:Eload.
  - destruct (validate protocol) as [[err|]|e] eqn:Eval.
    + assert (Hne : JobProtocol.Error_toString err <> "").
      { destruct (validate_error _ _ Eval) as [m ->].
        now apply Error_toString_named. }
      split; [|split].
      * split; [contradiction|].
        intros (p & [= <-] & Hp). congruence.
      * discriminate.
      * intros p e [= <-] He. rewrite Eval in He.
        injection He as <-. now split.
    + split; [|split].
      * split; [|reflexivity]. intros _. now exists protocol.
      * discriminate.
      * intros p e [= <-] He. congruence.
    + pose proof (validate_message _ _ Eval) as Hne.
      split; [|split].
      * split; [contradiction|].
        intros (p & [= <-] & Hp). congruence.
      * discriminate.
      * intros p e' [= <-] He. congruence.
  - pose proof (safeLoad_message _ _ Eload) as Hne.
    split; [|split].
    + split; [contradiction|]. intros (p & Hp & _). discriminate.
    + intros e' [= <-]. now split.
    + discriminate.
Qed.
End Validation.

(** On the table: ["not: [valid"] gives a non-empty error string, the
    text of the full document gives the empty string. *)
Lemma validateFromYaml_empty_iff_valid_witness :
  JobProtocol.validateFromYaml Examples.safeLoad Examples.validate
    "not: [valid" <> ""
  /\ JobProtocol.validateFromYaml Examples.safeLoad Examples.validate
       Examples.document_yaml = "".
Proof.
  assert (H1 : forall text e,
             Examples.safeLoad text = Throw e -> ToString (message e) <> "").
  { intros text e. unfold Examples.safeLoad.
    repeat match goal with
           | |- context [if ?b then _ else _] => destruct b
           end; intros [= <-]; simpl; discriminate. }
  assert (H2 : forall v e,
             Examples.validate v = Throw e -> ToString (message e) <> "").
  { intros v e. unfold Examples.validate.
    destruct (value_eqb _ _); discriminate. }
  assert (H3 : forall v e,
             Examples.validate v = Ok (Some e) ->
             exists m, e = Error "ValidationError" m).
  { intros v e. unfold Examples.validate.
    destruct (value_eqb _ _); intros [= <-]. eexists. reflexivity. }
  split.
  - destruct (validateFromYaml_empty_iff_valid Examples.safeLoad
                Examples.validate H1 H2 H3 "not: [valid") as (_ & Hparse & _).
    destruct (Hparse _ eq_refl) as [-> Hne]. exact Hne.
  - apply (validateFromYaml_empty_iff_valid Examples.safeLoad
             Examples.validate H1 H2 H3 Examples.document_yaml).
    eexists. split; reflexivity.
Defined.

(** ** What [SECRET_PATTERN] matches *)

Section Matcher.
Import RegExp.

Lemma length_append (a b : string) :
  String.length (a ++ b) = (String.length a + String.length b)%nat.
Proof. induction a; simpl; [reflexivity | now rewrite IHa]. Qed.

Lemma append_assoc (a b c : string) : ((a ++ b) ++ c = a ++ (b ++ c))%string.
Proof. induction a; simpl; [reflexivity | now rewrite IHa]. Qed.

Lemma substring_prefix (a b : string) :
  substring 0 (String.length a) (a ++ b) = a.
Proof.
  induction a as [|c a IH]; simpl.
  - now destruct b.
  - now rewrite IH.
Qed.

Lemma substring_skip (a t : string) (n : nat) :
  substring (String.length a) n (a ++ t) = substring 0 n t.
Proof. induction a as [|c a IH]; simpl; [reflexivity | exact IH]. Qed.

Lemma run_lit (a : string) (tail : list atom) (s : string) (pos g : nat)
    (cap : option span) :
  run (lit a ++ tail) (a ++ s) pos g cap
  = run tail s (String.length a + pos) g cap.
Proof.
  revert pos. induction a as [|c a IH]; intros pos; [reflexivity|].
  cbn [lit app append run]. rewrite Ascii.eqb_refl, IH.
  f_equal. simpl. lia.
Qed.

Lemma run_lit_inv (a : string) (tail : list atom) (s : string) (pos g : nat)
    (cap : option span) (res : nat * option span) :
  run (lit a ++ tail) s pos g cap = Some res ->
  exists s', s = (a ++ s')%string
             /\ run tail s' (String.length a + pos) g cap = Some res.
Proof.
  revert s pos. induction a as [|c a IH]; intros s pos.
  - intros H. now exists s.
  - cbn [lit app run]. destruct s as [|c' s]; [discriminate|].
    destruct (Ascii.eqb c c') eqn:E; [|discriminate].
    apply Ascii.eqb_eq in E as <-. intros H.
    apply IH in H as (s' & -> & H). exists s'. split; [reflexivity|].
    rewrite <- H. f_equal. simpl. lia.
Qed.

Lemma run_dot (tail : list atom) (c : ascii) (s : string) (pos g : nat)
    (cap : option span) :
  run (Dot :: tail) (String c s) pos g cap
  = if line_terminator c then None else run tail s (S pos) g cap.
Proof. reflexivity. Qed.

Lemma run_cls (p : ascii -> bool) (tail : list atom) (c : ascii) (s : string)
    (pos g : nat) (cap : option span) :
  run (Cls p :: tail) (String c s) pos g cap
  = if p c then run tail s (S pos) g cap else None.
Proof. reflexivity. Qed.

Lemma run_open (tail : list atom) (s : string) (pos g : nat)
    (cap : option span) :
  run (GroupOpen :: tail) s pos g cap = run tail s pos pos cap.
Proof. reflexivity. Qed.

Lemma run_close (tail : list atom) (s : string) (pos g : nat)
    (cap : option span) :
  run (GroupClose :: tail) s pos g cap = run tail s pos g (Some (g, pos)).
Proof. reflexivity. Qed.

Lemma run_star_cons (p : ascii -> bool) (tail : list atom) (c : ascii)
    (s : string) (pos g : nat) (cap : option span) :
  run (ClsStar p :: tail) (String c s) pos g cap
  = if p c then
      match run (ClsStar p :: tail) s (S pos) g cap with
      | Some res => Some res
      | None => run tail (String c s) pos g cap
      end
    else run tail (String c s) pos g cap.
Proof. reflexivity. Qed.

(** A run of class characters that is followed by another character
    and by a match of the rest of the pattern is taken whole. *)
Lemma run_star_all (p : ascii -> bool) (tail : list atom) (r : string)
    (c0 : ascii) (s : string) (pos g : nat) (cap : option span)
    (res : nat * option span) :
  all_chars p r = true ->
  p c0 = false ->
  run tail (String c0 s) (String.length r + pos) g cap = Some res ->
  run (ClsStar p :: tail) (r ++ String c0 s) pos g cap = Some res.
Proof.
  intros Hr Hc0. revert pos.
  induction r as [|c r IH]; intros pos Htail.
  - cbn [append]. now rewrite run_star_cons, Hc0.
  - cbn [all_chars] in Hr. apply andb_true_iff in Hr as [Hc Hr].
    cbn [append]. rewrite run_star_cons, Hc.
    rewrite (IH Hr (S pos)); [reflexivity|].
    rewrite <- Htail. f_equal. simpl. lia.
Qed.

Lemma run_star_inv (p : ascii -> bool) (tail : list atom) (s : string)
    (pos g : nat) (cap : option span) (res : nat * option span) :
  run (ClsStar p :: tail) s pos g cap = Some res ->
  exists r s',
    s = (r ++ s')%string
    /\ all_chars p r = true
    /\ run tail s' (String.length r + pos) g cap = Some res.
Proof.
  revert pos. induction s as [|c s IH]; intros pos H.
  - exists ""%string, ""%string. now repeat split.
  - rewrite run_star_cons in H.
    assert (Hhere : run tail (String c s) pos g cap = Some res ->
                    exists r s',
                      String c s = (r ++ s')%string
                      /\ all_chars p r = true
                      /\ run tail s' (String.length r + pos) g cap = Some res).
    { intros Ht. exists ""%string, (String c s). now repeat split. }
    destruct (p c) eqn:Hc; [|auto].
    destruct (run (ClsStar p :: tail) s (S pos) g cap) as [res'|] eqn:E;
      [|auto].
    injection H as ->. apply IH in E as (r & s' & -> & Hr & Ht).
    exists (String c r), s'. split; [reflexivity|].
    split; [cbn [all_chars]; now rewrite Hc, Hr|].
    rewrite <- Ht. f_equal. simpl. lia.
Qed.

Lemma SECRET_PATTERN_atoms :
  DockerInfo.SECRET_PATTERN
  = (lit "<% $secrets"
     ++ [Dot; GroupOpen; Cls ident_start; ClsStar ident_char; GroupClose]
     ++ lit " %>")%list.
Proof. reflexivity. Qed.

(** The pattern matches a string that starts with [<% $secrets],
    any one character that is not a line terminator, an identifier
    and [ %>], whatever follows; group 1 is the identifier. *)
Lemma run_SECRET_PATTERN (sep : ascii) (id rest : string) :
  line_terminator sep = false ->
  identifier id = true ->
  run DockerInfo.SECRET_PATTERN
    ("<% $secrets" ++ String sep (id ++ " %>" ++ rest)) 0 0 None
  = Some (String.length ("<% $secrets" ++ String sep (id ++ " %>")),
          Some (12, 12 + String.length id))%nat.
Proof.
  intros Hsep Hid. destruct id as [|c r]; [discriminate|].
  cbn [identifier] in Hid. apply andb_true_iff in Hid as [Hc Hr].
  rewrite SECRET_PATTERN_atoms, run_lit.
  cbn [app append]. rewrite run_dot, Hsep, run_open, run_cls, Hc.
  apply (run_star_all ident_char _ r " " (String "%" (String ">" rest)));
    try assumption; [reflexivity|].
  rewrite run_close. cbn. rewrite !length_append. cbn.
  replace (String.length r + 13)%nat with (13 + String.length r)%nat by lia.
  replace (String.length r + 3)%nat with (3 + String.length r)%nat by lia.
  reflexivity.
Qed.

Lemma exec_SECRET_PATTERN (sep : ascii) (id rest : string) :
  line_terminator sep = false ->
  identifier id = true ->
  exec DockerInfo.SECRET_PATTERN
    (VStr ("<% $secrets" ++ String sep (id ++ " %>" ++ rest)))
  = VArr [VStr ("<% $secrets" ++ String sep (id ++ " %>")); VStr id].
Proof.
  intros Hsep Hid. unfold exec. cbn [ToString].
  rewrite (run_SECRET_PATTERN _ _ _ Hsep Hid).
  do 3 f_equal.
  - change ("<% $secrets" ++ String sep (id ++ " %>" ++ rest))%string
      with ("<% $secrets" ++ String sep (id ++ (" %>" ++ rest)))%string.
    replace ("<% $secrets" ++ String sep (id ++ (" %>" ++ rest)))%string
      with (("<% $secrets" ++ String sep (id ++ " %>")) ++ rest)%string.
    + apply substring_prefix.
    + cbn [append]. now rewrite append_assoc.
  - f_equal.
    replace (12 + String.length id - 12)%nat with (String.length id) by lia.
    change ("<% $secrets" ++ String sep (id ++ " %>" ++ rest))%string
      with (("<% $secrets" ++ String sep "") ++ (id ++ " %>" ++ rest))%string.
    change 12%nat with (String.length ("<% $secrets" ++ String sep "")).
    rewrite substring_skip. apply substring_prefix.
Qed.

(** Nothing else matches: the anchor ties the match to offset 0. *)
Lemma exec_SECRET_PATTERN_inv (s : string) :
  exec DockerInfo.SECRET_PATTERN (VStr s) <> VNull ->
  exists sep id rest,
    s = ("<% $secrets" ++ String sep (id ++ " %>" ++ rest))%string
    /\ line_terminator sep = false
    /\ identifier id = true.
Proof.
  unfold exec. cbn [ToString].
  destruct (run DockerInfo.SECRET_PATTERN s 0 0 None) as [res|] eqn:E;
    [intros _ | congruence].
  rewrite SECRET_PATTERN_atoms in E.
  apply run_lit_inv in E as (s1 & -> & E).
  cbn [app] in E.
  destruct s1 as [|sep s1]; [discriminate|].
  rewrite run_dot in E.
  destruct (line_terminator sep) eqn:Hsep; [discriminate|].
  rewrite run_open in E.
  destruct s1 as [|c s1]; [discriminate|].
  rewrite run_cls in E.
  destruct (ident_start c) eqn:Hc; [|discriminate].
  apply run_star_inv in E as (r & s2 & -> & Hr & E).
  rewrite run_close in E.
  apply (run_lit_inv " %>" []) in E as (s3 & -> & _).
  exists sep, (String c r), s3. split; [reflexivity|]. split; [exact Hsep|].
  cbn [identifier]. now rewrite Hc, Hr.
Qed.
End Matcher.

(** A password that starts with a reference to a secret that is bound
    to a value is resolved to that value, whatever follows the
    reference; [secretRef] keeps the password as it was written. *)
Lemma resolves_with_trailing_content (e : DockerInfo.env) (sep : ascii)
    (id rest : string) (fs : list (string * value)) (v : value) :
  RegExp.line_terminator sep = false ->
  identifier id = true ->
  lookup id fs = Some v ->
  isNil v = false ->
  let password := ("<% $secrets" ++ String sep (id ++ " %>" ++ rest))%string in
  exists d,
    DockerInfo.fromProtocol e (with_password password) (VObj fs) = Ok d
    /\ DockerInfo.auth d = VObj [("password", v)]
    /\ DockerInfo.secretRef d = VStr password.
Proof.
  intros Hsep Hid Hv Hnil password.
  destruct (new_from_literal e (VObj [("password", v)]) (VStr password)
              (assign [] (with_password password))) as (d & Hd & Ha & Hs).
  exists d. split; [|split; [exact Ha | exact Hs]].
  rewrite <- Hd. unfold DockerInfo.fromProtocol.
  assert (Hexec : RegExp.exec DockerInfo.SECRET_PATTERN (VStr password)
                  = VArr [VStr ("<% $secrets" ++ String sep (id ++ " %>"));
                          VStr id])
    by now apply exec_SECRET_PATTERN.
  assert (Hne : String.eqb id "" = false) by (now destruct id).
  assert (Hprop : member (VObj fs) id = Ok v).
  { unfold member, prop, own_props. cbn [isNil]. now rewrite Hv. }
  change (Lodash.get (with_password password) "auth.password" (VStr ""))
    with (VStr password).
  cbn [Lodash.isNil isNil negb]. rewrite Hexec.
  cbn [Lodash.isEmpty]. unfold member at 1. cbn [isNil bind].
  change (prop "1" (VArr [VStr ("<% $secrets" ++ String sep (id ++ " %>"));
                          VStr id]))
    with (VStr id).
  cbn [Lodash.isEmpty ToString].
  rewrite Hne. cbn [negb]. rewrite Hprop. cbn [bind].
  unfold Lodash.isNil. rewrite Hnil. reflexivity.
Qed.

(** C9: ["<% $secrets#k1 %>"] is not a reference token, since [#]
    stands where the token has its dot; the pattern matches it all the
    same, and [fromProtocol] resolves [k1]. *)
Theorem fromProtocol_separator_unchecked :
  exists d,
    DockerInfo.fromProtocol Examples.env (with_password "<% $secrets#k1 %>")
      Examples.secrets_k1 = Ok d
    /\ RegExp.exec DockerInfo.SECRET_PATTERN (VStr "<% $secrets#k1 %>")
       = VArr [VStr "<% $secrets#k1 %>"; VStr "k1"]
    /\ DockerInfo.auth d = VObj [("password", VStr "hunter2")]
    /\ DockerInfo.secretRef d = VStr "<% $secrets#k1 %>".
Proof.
  eexists. split; [vm_compute; reflexivity|].
  repeat split; reflexivity.
Qed.

(** * Further properties of the models *)

(** ** [SECRET_PATTERN] and [fromProtocol] on every input *)

Lemma exec_SECRET_PATTERN_cases (v : value) :
  RegExp.exec DockerInfo.SECRET_PATTERN v = VNull
  \/ exists sep id rest,
      ToString v = ("<% $secrets" ++ String sep (id ++ " %>" ++ rest))%string
      /\ RegExp.line_terminator sep = false
      /\ identifier id = true
      /\ RegExp.exec DockerInfo.SECRET_PATTERN v
         = VArr [VStr ("<% $secrets" ++ String sep (id ++ " %>")); VStr id].
Proof.
  destruct (value_eqb (RegExp.exec DockerInfo.SECRET_PATTERN v) VNull) eqn:E.
  - left. now apply value_eqb_eq.
  - right. apply value_eqb_neq in E.
    change (RegExp.exec DockerInfo.SECRET_PATTERN v)
      with (RegExp.exec DockerInfo.SECRET_PATTERN (VStr (ToString v))) in *.
    destruct (exec_SECRET_PATTERN_inv _ E) as (sep & id & rest & Hs & Hsep & Hid).
    exists sep, id, rest. rewrite Hs.
    repeat split; try assumption. now apply exec_SECRET_PATTERN.
Qed.

Lemma identifier_not_empty (id : string) :
  identifier id = true -> String.eqb id "" = false.
Proof. now destruct id. Qed.

Lemma Z_to_string_head (n : Z) :
  exists c r, Z_to_string n = String c r /\ c <> "<"%char.
Proof.
  unfold Z_to_string, NilZero.string_of_int.
  destruct (Z.to_int n) as [d|d].
  - destruct d; simpl; eexists _, _; (split; [reflexivity | discriminate]).
  - simpl. eexists _, _. split; [reflexivity | discriminate].
Qed.

(** What is empty for [_.isEmpty] is not matched by the pattern. *)
Lemma isEmpty_no_match (v : value) :
  Lodash.isEmpty v = true ->
  RegExp.exec DockerInfo.SECRET_PATTERN v = VNull.
Proof.
  intros Hv.
  destruct (exec_SECRET_PATTERN_cases v)
    as [H | (sep & id & rest & Hs & _ & _ & _)]; [exact H|].
  exfalso. destruct v as [| |b|n|s|xs|fs|nat]; simpl in Hv.
  - discriminate Hs.
  - discriminate Hs.
  - destruct b; discriminate Hs.
  - destruct (Z_to_string_head n) as (c & r & E & Hc).
    cbn [ToString] in Hs. rewrite E in Hs. injection Hs as -> _. now apply Hc.
  - apply String.eqb_eq in Hv as ->. discriminate Hs.
  - destruct xs; [discriminate Hs | discriminate Hv].
  - discriminate Hs.
  - destruct nat as [[]|[]|k name]; discriminate Hs.
Qed.

Lemma get_of_nil (object : value) (path : string) (d : value) :
  isNil object = true -> Lodash.get object path d = d.
Proof. now destruct object. Qed.

Lemma password_of_nil (raw : value) :
  isNil raw = true ->
  RegExp.exec DockerInfo.SECRET_PATTERN
    (Lodash.get raw "auth.password" (VStr "")) = VNull.
Proof. intros H. now rewrite (get_of_nil _ _ _ H). Qed.

(** The three ways through [fromProtocol]. *)
Lemma fromProtocol_no_password (e : DockerInfo.env) (raw secrets : value) :
  let password := Lodash.get raw "auth.password" (VStr "") in
  isNil password = true ->
  DockerInfo.fromProtocol e raw secrets
  = DockerInfo.new e
      (VObj (set "secretRef" password
               (set "auth" VUndefined (assign [] raw)))).
Proof.
  intros password H. unfold DockerInfo.fromProtocol. fold password.
  unfold Lodash.isNil. now rewrite H.
Qed.

Lemma fromProtocol_no_match (e : DockerInfo.env) (raw secrets : value) :
  let password := Lodash.get raw "auth.password" (VStr "") in
  isNil password = false ->
  RegExp.exec DockerInfo.SECRET_PATTERN password = VNull ->
  DockerInfo.fromProtocol e raw secrets
  = DockerInfo.new e
      (VObj (set "secretRef" (VStr "")
               (set "auth" (VObj []) (assign [] raw)))).
Proof.
  intros password H Hexec. unfold DockerInfo.fromProtocol. fold password.
  unfold Lodash.isNil. now rewrite H, Hexec.
Qed.

Lemma fromProtocol_match (e : DockerInfo.env) (raw secrets : value)
    (whole key : string) :
  let password := Lodash.get raw "auth.password" (VStr "") in
  RegExp.exec DockerInfo.SECRET_PATTERN password
  = VArr [VStr whole; VStr key] ->
  String.eqb key "" = false ->
  DockerInfo.fromProtocol e raw secrets
  = let* s := member secrets key in
    if isNil s then
      DockerInfo.new e
        (VObj (set "secretRef" (VStr "")
                 (set "auth" (VObj []) (assign [] raw))))
    else
      DockerInfo.new e
        (VObj (set "secretRef" password
                 (set "auth"
                    (VObj (set "password" s (assign [] (prop "auth" raw))))
                    (assign [] raw)))).
Proof.
  intros password Hexec Hkey.
  assert (Hraw : isNil raw = false).
  { destruct (isNil raw) eqn:E; [|reflexivity].
    unfold password in Hexec. now rewrite (password_of_nil _ E) in Hexec. }
  assert (Hpw : isNil password = false).
  { destruct (isNil password) eqn:E; [|reflexivity].
    rewrite isEmpty_no_match in Hexec; [discriminate|].
    now destruct password. }
  unfold DockerInfo.fromProtocol. fold password.
  unfold Lodash.isNil. rewrite Hpw, Hexec.
  cbn [negb Lodash.isEmpty]. unfold member at 1. cbn [isNil bind].
  change (prop "1" (VArr [VStr whole; VStr key])) with (VStr key).
  cbn [Lodash.isEmpty ToString]. rewrite Hkey. cbn [negb].
  destruct (member secrets key) as [s|err]; [|reflexivity].
  cbn [bind]. destruct (isNil s); cbn [negb bind]; [reflexivity|].
  unfold member. rewrite Hraw. reflexivity.
Qed.

(** X1: the pattern matches a string exactly when the string is
    [<% $secrets], one character that is no line terminator, an
    identifier and [ %>], followed by anything; the result then holds
    the matched prefix and, as group 1, the identifier. *)
Theorem SECRET_PATTERN_matches_exactly (s : string) :
  (RegExp.exec DockerInfo.SECRET_PATTERN (VStr s) <> VNull
   <-> exists sep id rest,
        s = ("<% $secrets" ++ String sep (id ++ " %>" ++ rest))%string
        /\ RegExp.line_terminator sep = false
        /\ identifier id = true)
  /\ (forall sep id rest,
         s = ("<% $secrets" ++ String sep (id ++ " %>" ++ rest))%string ->
         RegExp.line_terminator sep = false ->
         identifier id = true ->
         RegExp.exec DockerInfo.SECRET_PATTERN (VStr s)
         = VArr [VStr ("<% $secrets" ++ String sep (id ++ " %>")); VStr id]).
Proof.
  split; [split|].
  - apply exec_SECRET_PATTERN_inv.
  - intros (sep & id & rest & -> & Hsep & Hid).
    now rewrite (exec_SECRET_PATTERN _ _ rest Hsep Hid).
  - intros sep id rest -> Hsep Hid. now apply exec_SECRET_PATTERN.
Qed.

Lemma SECRET_PATTERN_matches_exactly_witness :
  RegExp.exec DockerInfo.SECRET_PATTERN (VStr "<% $secrets.my_key2 %> and more")
  = VArr [VStr "<% $secrets.my_key2 %>"; VStr "my_key2"].
Proof.
  exact (proj2 (SECRET_PATTERN_matches_exactly
                  "<% $secrets.my_key2 %> and more")
           "."%char "my_key2"%string " and more"%string
           eq_refl eq_refl eq_refl).
Defined.





(** X4: a reference that [fromProtocol] returns either carries no
    credential, with [auth] the empty mapping and [secretRef] the
    empty string, or carries in [auth.password] the value that the
    secret mapping holds, neither [null] nor [undefined], under the
    key the pattern found, with [secretRef] the password as the raw
    prerequisite had it.  A password that is no reference is never
    kept. *)
Theorem fromProtocol_credential_or_nothing
    (e : DockerInfo.env) (raw secrets : value) (d : DockerInfo.t) :
  DockerInfo.fromProtocol e raw secrets = Ok d ->
  let password := Lodash.get raw "auth.password" (VStr "") in
  (DockerInfo.auth d = VObj [] /\ DockerInfo.secretRef d = VStr "")
  \/ (exists whole key,
         RegExp.exec DockerInfo.SECRET_PATTERN password
         = VArr [VStr whole; VStr key]
         /\ prop "password" (DockerInfo.auth d) = prop key secrets
         /\ isNil (prop key secrets) = false
         /\ DockerInfo.secretRef d = password
         /\ Lodash.isEmpty password = false).
Proof.
  intros Hd password.
  assert (Hnone : forall a s,
             (a = VUndefined \/ a = VObj []) ->
             Lodash.isEmpty s = true ->
             DockerInfo.new e (VObj (set "secretRef" s
                                       (set "auth" a (assign [] raw)))) = Ok d ->
             DockerInfo.auth d = VObj [] /\ DockerInfo.secretRef d = VStr "").
  { intros a s Ha Hs Hnew.
    destruct (new_from_literal e a s (assign [] raw)) as (d' & Hd' & Hauth & Hsr).
    rewrite Hd' in Hnew. injection Hnew as <-.
    rewrite Hauth, Hsr, Hs. now destruct Ha as [-> | ->]. }
  destruct (isNil password) eqn:Hpw.
  - left. rewrite (fromProtocol_no_password e raw secrets Hpw) in Hd.
    apply (Hnone VUndefined password); auto. now destruct password.
  - destruct (exec_SECRET_PATTERN_cases password)
      as [Hexec | (sep & id & rest & _ & _ & Hid & Hexec)].
    + left. rewrite (fromProtocol_no_match e raw secrets Hpw Hexec) in Hd.
      apply (Hnone (VObj []) (VStr "")); auto.
    + rewrite (fromProtocol_match e raw secrets _ _ Hexec
                 (identifier_not_empty _ Hid)) in Hd.
      unfold member in Hd. destruct (isNil secrets); [discriminate|].
      cbn [bind] in Hd. destruct (isNil (prop id secrets)) eqn:Hs.
      * left. apply (Hnone (VObj []) (VStr "")); auto.
      * right. exists ("<% $secrets" ++ String sep (id ++ " %>"))%string, id.
        assert (Hne : Lodash.isEmpty password = false).
        { destruct (Lodash.isEmpty password) eqn:E; [|reflexivity].
          rewrite (isEmpty_no_match _ E) in Hexec. discriminate. }
        destruct (new_from_literal e
                    (VObj (set "password" (prop id secrets)
                             (assign [] (prop "auth" raw))))
                    password (assign [] raw)) as (d' & Hd' & Hauth & Hsr).
        fold password in Hd. rewrite Hd' in Hd. injection Hd as <-.
        rewrite Hauth, Hsr, Hne.
        repeat split; try assumption; try reflexivity.
        unfold or, prop. cbn [truthy own_props].
        now rewrite lookup_set, String.eqb_refl.
Qed.

Lemma fromProtocol_credential_or_nothing_witness :
  let d := {| DockerInfo.uri := VStr "";
              DockerInfo.auth := VObj [];
              DockerInfo.updateTime := VNum 1561939200000;
              DockerInfo.secretRef := VStr "";
              DockerInfo.name := VStr "" |} in
  (DockerInfo.auth d = VObj [] /\ DockerInfo.secretRef d = VStr "")
  \/ (exists whole key,
         RegExp.exec DockerInfo.SECRET_PATTERN (VStr "hunter2")
         = VArr [VStr whole; VStr key]
         /\ prop "password" (DockerInfo.auth d) = prop key Examples.secrets_k1
         /\ isNil (prop key Examples.secrets_k1) = false
         /\ DockerInfo.secretRef d = VStr "hunter2"
         /\ Lodash.isEmpty (VStr "hunter2") = false).
Proof.
  exact (fromProtocol_credential_or_nothing Examples.env
           (with_password "hunter2") Examples.secrets_k1 _ eq_refl).
Defined.

(** ** The document form of a reference *)

Lemma bind_Ok {A B} (r : result A) (k : A -> result B) (b : B) :
  bind r k = Ok b -> exists a, r = Ok a /\ k a = Ok b.
Proof. destruct r as [a|err]; [|discriminate]. intros H. now exists a. Qed.

Lemma assign_keys (fs : list (string * value)) (source : value) :
  NoDup (List.map fst fs) -> NoDup (List.map fst (assign fs source)).
Proof.
  unfold assign. generalize (own_props source) as l. intros l. revert fs.
  induction l as [|[k v] l IH]; intros fs Hnd; [exact Hnd|].
  cbn [fold_left fst snd]. apply IH. now apply set_keys.
Qed.

Lemma document_form_fields (d : DockerInfo.t) :
  let prunedAuth :=
    if negb (Lodash.isEmpty (DockerInfo.secretRef d))
    then set "password" (DockerInfo.secretRef d)
           (assign [] (DockerInfo.auth d))
    else assign [] (DockerInfo.auth d) in
  let fields :=
    [("type", VStr "dockerimage"); ("auth", VObj prunedAuth);
     ("uri", DockerInfo.uri d); ("name", DockerInfo.name d)] in
  DockerInfo.convertToProtocolFormat d = VObj (pruned_fields fields)
  /\ NoDup (List.map fst fields)
  /\ NoDup (List.map fst prunedAuth).
Proof.
  intros prunedAuth fields. split; [|split].
  - unfold DockerInfo.convertToProtocolFormat. fold prunedAuth.
    now rewrite removeEmptyProperties_obj.
  - cbn. repeat constructor; cbn; intuition discriminate.
  - unfold prunedAuth.
    destruct (negb (Lodash.isEmpty (DockerInfo.secretRef d)));
      [apply set_keys|]; apply assign_keys; constructor.
Qed.

(** X5: the document form of a reference is a mapping with [type]
    ["dockerimage"], with no other keys than [type], [auth], [uri] and
    [name], each at most once, and without an empty string, mapping or
    sequence as a field at any depth; [secretRef] and [updateTime] are
    not part of it. *)
Theorem convertToProtocolFormat_shape (d : DockerInfo.t) :
  exists fs,
    DockerInfo.convertToProtocolFormat d = VObj fs
    /\ lookup "type" fs = Some (VStr "dockerimage")
    /\ (forall k, In k (List.map fst fs) -> In k ["type"; "auth"; "uri"; "name"])
    /\ NoDup (List.map fst fs)
    /\ no_empty_fields (VObj fs) = true.
Proof.
  destruct (document_form_fields d) as (Hform & Hnd & _).
  eexists. split; [exact Hform|].
  split; [now rewrite (lookup_pruned_fields _ _ Hnd)|].
  split; [intros k Hk; apply pruned_fields_keys in Hk; exact Hk|].
  split; [now apply pruned_fields_NoDup|].
  rewrite <- removeEmptyProperties_obj.
  apply removeEmptyProperties_no_empty_fields.
Qed.

Lemma convertToProtocolFormat_shape_witness :
  exists fs,
    DockerInfo.convertToProtocolFormat
      {| DockerInfo.uri := VStr "ubuntu";
         DockerInfo.auth := VObj [];
         DockerInfo.updateTime := VNum 0;
         DockerInfo.secretRef := VStr "";
         DockerInfo.name := VStr "" |} = VObj fs
    /\ lookup "type" fs = Some (VStr "dockerimage")
    /\ (In "uri"%string (List.map fst fs) ->
        In "uri"%string ["type"; "auth"; "uri"; "name"]%string).
Proof.
  destruct (convertToProtocolFormat_shape
              {| DockerInfo.uri := VStr "ubuntu";
                 DockerInfo.auth := VObj [];
                 DockerInfo.updateTime := VNum 0;
                 DockerInfo.secretRef := VStr "";
                 DockerInfo.name := VStr "" |})
    as (fs & Hfs & Htype & Hkeys & _).
  exists fs. split; [exact Hfs|]. split; [exact Htype | apply Hkeys].
Defined.

(** X6: when [secretRef] is a non-empty string, the document form
    has that string as [auth.password], whatever [auth] holds: the
    password of the reference is not written. *)
Theorem convertToProtocolFormat_writes_secretRef
    (d : DockerInfo.t) (s : string) :
  DockerInfo.secretRef d = VStr s ->
  s <> ""%string ->
  prop "password" (prop "auth" (DockerInfo.convertToProtocolFormat d))
  = VStr s.
Proof.
  intros Hs Hne.
  destruct (document_form_fields d) as (Hform & Hnd & Hnda).
  cbv zeta in Hform, Hnd, Hnda.
  apply String.eqb_neq in Hne.
  set (pa := if negb (Lodash.isEmpty (DockerInfo.secretRef d))
             then set "password" (DockerInfo.secretRef d)
                    (assign [] (DockerInfo.auth d))
             else assign [] (DockerInfo.auth d)) in *.
  assert (Epa : pa = set "password" (VStr s) (assign [] (DockerInfo.auth d))).
  { unfold pa. rewrite Hs. cbn [Lodash.isEmpty]. now rewrite Hne. }
  assert (Hpw : lookup "password" (pruned_fields pa) = Some (VStr s)).
  { rewrite (lookup_pruned_fields _ _ Hnda), Epa.
    rewrite lookup_set, String.eqb_refl.
    cbn [Utils.removeEmptyProperties Utils.empty_prunable]. now rewrite Hne. }
  assert (Hauth : prop "auth" (DockerInfo.convertToProtocolFormat d)
                  = VObj (pruned_fields pa)).
  { rewrite Hform. unfold prop. cbn [own_props].
    rewrite (lookup_pruned_fields _ _ Hnd).
    cbn [lookup String.eqb Ascii.eqb Bool.eqb].
    rewrite removeEmptyProperties_obj.
    destruct (pruned_fields pa); [discriminate Hpw | reflexivity]. }
  rewrite Hauth. unfold prop. cbn [own_props]. now rewrite Hpw.
Qed.

Lemma convertToProtocolFormat_writes_secretRef_witness :
  prop "password"
    (prop "auth"
       (DockerInfo.convertToProtocolFormat
          {| DockerInfo.uri := VStr "ubuntu";
             DockerInfo.auth :=
               VObj [("username", VStr "alice"); ("password", VStr "hunter2")];
             DockerInfo.updateTime := VNum 0;
             DockerInfo.secretRef := VStr "<% $secrets.k1 %>";
             DockerInfo.name := VStr "" |}))
  = VStr "<% $secrets.k1 %>".
Proof.
  apply convertToProtocolFormat_writes_secretRef; [reflexivity | discriminate].
Defined.

Lemma new_name (e : DockerInfo.env) (props : value) (d : DockerInfo.t) :
  DockerInfo.new e props = Ok d ->
  DockerInfo.name d = or (DockerInfo.global_name e) (VStr "").
Proof.
  unfold DockerInfo.new. destruct (isNil props); [discriminate|].
  now intros [= <-].
Qed.

(** X7: the [name] of a reference that [fromProtocol] returns is
    the global [name] (or the empty string), not the [name] of the raw
    prerequisite; when the global [name] is falsy, the document form
    of the reference has no [name]. *)
Theorem fromProtocol_name_not_carried
    (e : DockerInfo.env) (raw secrets : value) (d : DockerInfo.t) :
  DockerInfo.fromProtocol e raw secrets = Ok d ->
  DockerInfo.name d = or (DockerInfo.global_name e) (VStr "")
  /\ (truthy (DockerInfo.global_name e) = false ->
      prop "name" (DockerInfo.convertToProtocolFormat d) = VUndefined).
Proof.
  intros Hd. unfold DockerInfo.fromProtocol in Hd.
  apply bind_Ok in Hd as (x & _ & Hnew). apply new_name in Hnew.
  split; [exact Hnew|]. intros Hg.
  destruct (document_form_fields d) as (Hform & Hnd & _).
  rewrite Hform. unfold prop. cbn [own_props].
  rewrite (lookup_pruned_fields _ _ Hnd).
  cbn [lookup String.eqb Ascii.eqb Bool.eqb].
  rewrite Hnew. unfold or. rewrite Hg. reflexivity.
Qed.

Lemma fromProtocol_name_not_carried_witness :
  exists d,
    DockerInfo.fromProtocol Examples.env
      (VObj [("name", VStr "img"); ("uri", VStr "ubuntu")]) (VObj []) = Ok d
    /\ DockerInfo.name d = VStr ""
    /\ prop "name" (DockerInfo.convertToProtocolFormat d) = VUndefined.
Proof.
  eexists. split; [reflexivity|].
  destruct (fromProtocol_name_not_carried Examples.env
              (VObj [("name", VStr "img"); ("uri", VStr "ubuntu")]) (VObj [])
              _ eq_refl) as [Hname Hform].
  split; [exact Hname | exact (Hform eq_refl)].
Defined.

Lemma set_fresh (k : string) (v : value) (fs : list (string * value)) :
  ~ In k (List.map fst fs) -> set k v fs = (fs ++ [(k, v)])%list.
Proof.
  induction fs as [|[k0 x] l IH]; simpl; intros Hk; [reflexivity|].
  destruct (String.eqb k k0) eqn:E.
  - apply String.eqb_eq in E. subst. tauto.
  - rewrite IH; [reflexivity | tauto].
Qed.

Lemma set_set (k : string) (v w : value) (fs : list (string * value)) :
  set k v (set k w fs) = set k v fs.
Proof.
  induction fs as [|[k0 x] l IH]; simpl.
  - now rewrite String.eqb_refl.
  - destruct (String.eqb k k0) eqn:E; simpl.
    + now rewrite String.eqb_refl.
    + now rewrite E, IH.
Qed.

Lemma set_same (k : string) (v : value) (fs : list (string * value)) :
  lookup k fs = Some v -> set k v fs = fs.
Proof.
  induction fs as [|[k0 x] l IH]; simpl; [discriminate|].
  destruct (String.eqb k k0) eqn:E.
  - apply String.eqb_eq in E as ->. now intros [= ->].
  - intros H. now rewrite (IH H).
Qed.

(** Spreading an object with distinct keys into a fresh object copies
    its properties in order. *)
Lemma assign_copy (acc fs : list (string * value)) :
  NoDup (List.map fst (acc ++ fs)) -> assign acc (VObj fs) = (acc ++ fs)%list.
Proof.
  unfold assign. cbn [own_props]. revert acc.
  induction fs as [|[k v] l IH]; intros acc Hnd; cbn [fold_left fst snd].
  - now rewrite app_nil_r.
  - assert (Hk : ~ In k (List.map fst acc)).
    { rewrite map_app in Hnd. cbn [List.map fst] in Hnd.
      apply NoDup_remove_2 in Hnd. rewrite in_app_iff in Hnd. tauto. }
    rewrite (set_fresh _ _ _ Hk), IH; rewrite <- app_assoc; [reflexivity|].
    exact Hnd.
Qed.

(** X8: a raw prerequisite whose [auth.password] starts with a
    reference to a secret that the mapping binds to a value is read
    with the secret as password, and its document form gives back the
    [auth] block of the raw prerequisite, pruned, with the password as
    it was written. *)
Theorem fromProtocol_convertToProtocolFormat_auth
    (e : DockerInfo.env) (fs afs sfs : list (string * value))
    (sep : ascii) (id rest : string) (v : value) :
  let password := ("<% $secrets" ++ String sep (id ++ " %>" ++ rest))%string in
  lookup "auth.password" fs = None ->
  lookup "auth" fs = Some (VObj afs) ->
  NoDup (List.map fst afs) ->
  lookup "password" afs = Some (VStr password) ->
  RegExp.line_terminator sep = false ->
  identifier id = true ->
  lookup id sfs = Some v ->
  isNil v = false ->
  exists d,
    DockerInfo.fromProtocol e (VObj fs) (VObj sfs) = Ok d
    /\ prop "password" (DockerInfo.auth d) = v
    /\ prop "auth" (DockerInfo.convertToProtocolFormat d)
       = Utils.removeEmptyProperties (VObj afs).
Proof.
  intros password Hkey Hauth Hnd Hpw Hsep Hid Hv Hnil.
  assert (Hget : Lodash.get (VObj fs) "auth.password" (VStr "")
                 = VStr password).
  { unfold Lodash.get, has_property, has_key. cbn [own_props]. rewrite Hkey.
    change (inherited "auth.password" (VObj fs)) with VUndefined.
    change (String.eqb "auth.password" "length") with false.
    cbn [orb andb negb].
    change (Lodash.split_dots "" "auth.password") with ["auth"; "password"].
    cbn [Lodash.baseGet isNil].
    assert (Ha : prop "auth" (VObj fs) = VObj afs).
    { unfold prop. cbn [own_props]. now rewrite Hauth. }
    rewrite Ha. cbn [isNil]. unfold prop. cbn [own_props].
    now rewrite Hpw. }
  pose proof (exec_SECRET_PATTERN sep id rest Hsep Hid) as Hexec.
  fold password in Hexec. rewrite <- Hget in Hexec.
  pose proof (fromProtocol_match e (VObj fs) (VObj sfs) _ _ Hexec
                (identifier_not_empty _ Hid)) as Hfrom.
  rewrite Hget in Hfrom.
  assert (Hmember : member (VObj sfs) id = Ok v).
  { unfold member, prop, own_props. cbn [isNil]. now rewrite Hv. }
  rewrite Hmember in Hfrom. cbn [bind] in Hfrom. rewrite Hnil in Hfrom.
  assert (Hraw_auth : prop "auth" (VObj fs) = VObj afs).
  { unfold prop. cbn [own_props]. now rewrite Hauth. }
  rewrite Hraw_auth, (assign_copy [] afs Hnd) in Hfrom. cbn [app] in Hfrom.
  destruct (new_from_literal e (VObj (set "password" v afs)) (VStr password)
              (assign [] (VObj fs))) as (d & Hd & Ha & Hs).
  assert (Hne : Lodash.isEmpty (VStr password) = false) by reflexivity.
  cbn [or truthy] in Ha. rewrite Hne in Hs. cbn [negb] in Hs.
  exists d. split; [now rewrite Hfrom|]. split.
  - rewrite Ha. unfold prop. cbn [own_props].
    now rewrite lookup_set, String.eqb_refl.
  - destruct (document_form_fields d) as (Hform & Hndf & _).
    cbv zeta in Hform, Hndf. rewrite Hs, Ha, Hne in Hform, Hndf.
    cbn [negb] in Hform, Hndf.
    assert (Hpa : set "password" (VStr password)
                    (assign [] (VObj (set "password" v afs))) = afs).
    { rewrite (assign_copy [] _ (set_keys _ _ _ Hnd)). cbn [app].
      rewrite set_set. now apply set_same. }
    rewrite Hpa in Hform, Hndf.
    rewrite Hform. unfold prop. cbn [own_props].
    rewrite (lookup_pruned_fields _ _ Hndf).
    cbn [lookup String.eqb Ascii.eqb Bool.eqb].
    rewrite removeEmptyProperties_obj.
    assert (Hkept : lookup "password" (pruned_fields afs)
                    = Some (VStr password)).
    { now rewrite (lookup_pruned_fields _ _ Hnd), Hpw. }
    destruct (pruned_fields afs); [discriminate Hkept | reflexivity].
Qed.

Lemma fromProtocol_convertToProtocolFormat_auth_witness :
  exists d,
    DockerInfo.fromProtocol Examples.env
      (VObj [("uri", VStr "ubuntu");
             ("auth", VObj [("username", VStr "alice");
                            ("password", VStr "<% $secrets.k1 %>");
                            ("registryuri", VStr "")])])
      Examples.secrets_k1 = Ok d
    /\ prop "password" (DockerInfo.auth d) = VStr "hunter2"
    /\ prop "auth" (DockerInfo.convertToProtocolFormat d)
       = VObj [("username", VStr "alice");
               ("password", VStr "<% $secrets.k1 %>")].
Proof.
  apply (fromProtocol_convertToProtocolFormat_auth Examples.env
           [("uri", VStr "ubuntu");
            ("auth", VObj [("username", VStr "alice");
                           ("password", VStr "<% $secrets.k1 %>");
                           ("registryuri", VStr "")])]
           [("username", VStr "alice");
            ("password", VStr "<% $secrets.k1 %>");
            ("registryuri", VStr "")]
           [("k1", VStr "hunter2")] "."%char "k1"%string ""%string
           (VStr "hunter2")); try reflexivity.
  cbn. repeat constructor; cbn; intuition discriminate.
Defined.

(** ** Documents: construction, parsing and writing *)

(** X9: building a document from the fields of a document the
    constructor built gives that document again. *)
Theorem new_of_document (props : value) :
  JobProtocol.new (JobProtocol.to_object (JobProtocol.construct props))
  = Ok (JobProtocol.construct props).
Proof.
  unfold JobProtocol.new. cbn [isNil JobProtocol.to_object].
  now rewrite construct_to_object.
Qed.

Lemma nat_to_string_head (n : nat) :
  exists c r, nat_to_string n = String c r /\ is_digit c = true.
Proof.
  unfold nat_to_string, NilZero.string_of_uint.
  destruct (Nat.to_uint n); simpl; eexists _, _; split; reflexivity.
Qed.

Lemma lookup_indexed_from (k : string) (i : nat) (xs : list value) :
  starts_with_digit k = false -> lookup k (indexed_from i xs) = None.
Proof.
  intros Hk. revert i. induction xs as [|x xs IH]; intros i; [reflexivity|].
  cbn [indexed_from lookup].
  destruct (String.eqb k (nat_to_string i)) eqn:E; [|apply IH].
  apply String.eqb_eq in E. subst k.
  destruct (nat_to_string_head i) as (c & r & E & Hc).
  rewrite E in Hk. cbn [starts_with_digit] in Hk. congruence.
Qed.

Lemma prop_non_object (k : string) (v : value) :
  is_object v = false ->
  starts_with_digit k = false ->
  String.eqb k "length" = false ->
  (forall v', inherited k v' = VUndefined) ->
  prop k v = VUndefined.
Proof.
  intros Hv Hk Hlen Hinh. unfold prop. rewrite Hlen, Hinh.
  destruct v; try reflexivity; try discriminate; cbn [own_props];
    now rewrite lookup_indexed_from.
Qed.

(** No prototype has a property named like a field of the document. *)
Lemma construct_non_object (v : value) :
  is_object v = false ->
  JobProtocol.construct v = JobProtocol.construct (VObj []).
Proof.
  intros Hv. unfold JobProtocol.construct.
  rewrite !(prop_non_object _ v Hv)
    by (try reflexivity; intros [| | | | | | |]; reflexivity).
  reflexivity.
Qed.

(** X10: [fromYaml] alerts the message of the exception when the
    parser throws, and alerts a [TypeError] when the text parses to
    [null] or [undefined]; in both cases no document comes back.  On
    any other parsed value it returns the document the constructor
    builds, without looking at the schema; a scalar or a sequence
    gives the document of the empty bundle. *)
Theorem fromYaml_outcomes (safeLoad : string -> result value)
    (protocolYaml : string) :
  (forall e,
      safeLoad protocolYaml = Throw e ->
      JobProtocol.fromYaml safeLoad protocolYaml
      = JobProtocol.Alert (message e))
  /\ (forall v,
         safeLoad protocolYaml = Ok v ->
         isNil v = true ->
         JobProtocol.fromYaml safeLoad protocolYaml
         = JobProtocol.Alert (message TypeError))
  /\ (forall v,
         safeLoad protocolYaml = Ok v ->
         isNil v = false ->
         JobProtocol.fromYaml safeLoad protocolYaml
         = JobProtocol.Return (JobProtocol.construct v))
  /\ (forall v,
         safeLoad protocolYaml = Ok v ->
         isNil v = false ->
         is_object v = false ->
         JobProtocol.fromYaml safeLoad protocolYaml
         = JobProtocol.Return (JobProtocol.construct (VObj []))).
Proof.
  unfold JobProtocol.fromYaml, JobProtocol.new.
  repeat split.
  - intros e ->. reflexivity.
  - intros v -> Hv. cbn [bind]. now rewrite Hv.
  - intros v -> Hv. cbn [bind]. now rewrite Hv.
  - intros v -> Hv Hobj. cbn [bind]. rewrite Hv.
    cbn [JobProtocol.try_alert]. now rewrite (construct_non_object _ Hobj).
Qed.

Lemma fromYaml_outcomes_witness :
  JobProtocol.fromYaml Examples.safeLoad "not: [valid"
  = JobProtocol.Alert
      (VStr "unexpected end of the stream within a flow collection at line 2, column 1")
  /\ JobProtocol.fromYaml MoreExamples.safeLoad ""
     = JobProtocol.Alert (message TypeError)
  /\ JobProtocol.fromYaml Examples.safeLoad "name: 7"
     = JobProtocol.Return (JobProtocol.construct (VObj [("name", VNum 7)]))
  /\ JobProtocol.fromYaml MoreExamples.safeLoad "7"
     = JobProtocol.Return (JobProtocol.construct (VObj [])).
Proof.
  split; [|split; [|split]].
  - exact (proj1 (fromYaml_outcomes Examples.safeLoad "not: [valid")
             _ eq_refl).
  - exact (proj1 (proj2 (fromYaml_outcomes MoreExamples.safeLoad ""))
             _ eq_refl eq_refl).
  - exact (proj1 (proj2 (proj2 (fromYaml_outcomes Examples.safeLoad "name: 7")))
             _ eq_refl eq_refl).
  - exact (proj2 (proj2 (proj2 (fromYaml_outcomes MoreExamples.safeLoad "7")))
             _ eq_refl eq_refl eq_refl).
Defined.

Lemma to_object_keys (d : JobProtocol.t) :
  NoDup (List.map fst (own_props (JobProtocol.to_object d))).
Proof. cbn. repeat constructor; cbn; intuition discriminate. Qed.

(** X11: what [toYaml] hands to the serialiser, for a document the
    constructor built, is a mapping that always has [protocolVersion]
    2 and [type] ["job"] and has no other keys than the thirteen
    fields; a string, sequence or mapping field that the bundle did
    not supply (or supplied as a falsy value) is not written, and a
    [jobRetryCount] that was not supplied is written as 0. *)
Theorem toYaml_written_fields (safeDump : value -> result string)
    (props : value) :
  let d := JobProtocol.construct props in
  exists fs,
    JobProtocol.toYaml safeDump d = JobProtocol.try_alert (safeDump (VObj fs))
    /\ lookup "protocolVersion" fs = Some (VNum 2)
    /\ lookup "type" fs = Some (VStr "job")
    /\ (forall k,
           In k (List.map fst fs) ->
           In k (List.map fst (own_props (JobProtocol.to_object d))))
    /\ (forall k,
           In k ["name"; "description"; "contributor"; "prerequisites";
                 "parameters"; "taskRoles"; "deployments"; "secrets";
                 "defaults"; "extras"] ->
           truthy (prop k props) = false ->
           lookup k fs = None)
    /\ (truthy (prop "jobRetryCount" props) = false ->
        lookup "jobRetryCount" fs = Some (VNum 0)).
Proof.
  intros d. pose proof (to_object_keys d) as Hnd.
  exists (pruned_fields (own_props (JobProtocol.to_object d))).
  split; [reflexivity|].
  split; [now rewrite (lookup_pruned_fields _ _ Hnd)|].
  split; [now rewrite (lookup_pruned_fields _ _ Hnd)|].
  split; [intros k; apply pruned_fields_keys|].
  split.
  - intros k Hk Hfalsy. rewrite (lookup_pruned_fields _ _ Hnd).
    cbn [In] in Hk.
    repeat (destruct Hk as [<- | Hk];
            [cbn [JobProtocol.to_object own_props lookup String.eqb Ascii.eqb
                    Bool.eqb];
             unfold d, JobProtocol.construct;
             cbn [JobProtocol.name JobProtocol.description
                    JobProtocol.contributor JobProtocol.prerequisites
                    JobProtocol.parameters JobProtocol.taskRoles
                    JobProtocol.deployments JobProtocol.secrets
                    JobProtocol.defaults JobProtocol.extras];
             unfold or; rewrite Hfalsy; reflexivity|]).
    contradiction.
  - intros Hfalsy. rewrite (lookup_pruned_fields _ _ Hnd).
    cbn [JobProtocol.to_object own_props lookup String.eqb Ascii.eqb Bool.eqb].
    unfold d, JobProtocol.construct. cbn [JobProtocol.jobRetryCount].
    unfold or. rewrite Hfalsy. reflexivity.
Qed.

Lemma toYaml_written_fields_witness :
  exists fs,
    JobProtocol.toYaml Examples.safeDump
      (JobProtocol.construct Examples.bundle_v3)
    = JobProtocol.try_alert (Examples.safeDump (VObj fs))
    /\ lookup "description" fs = None
    /\ lookup "jobRetryCount" fs = Some (VNum 0).
Proof.
  destruct (toYaml_written_fields Examples.safeDump Examples.bundle_v3)
    as (fs & Hfs & _ & _ & _ & Hnone & Hretry).
  exists fs. split; [exact Hfs|]. split.
  - apply Hnone; [cbn; tauto | reflexivity].
  - apply Hretry. reflexivity.
Defined.

(** ** [getUpdatedProtocol]: what is kept, what is computed *)

Lemma lookup_app (k : string) (l1 l2 : list (string * value)) :
  lookup k (l1 ++ l2)
  = match lookup k l1 with
    | Some v => Some v
    | None => lookup k l2
    end.
Proof.
  induction l1 as [|[k0 x] l1 IH]; [reflexivity|].
  cbn [app lookup]. now destruct (String.eqb k k0).
Qed.

Lemma lookup_In (k : string) (v : value) (fs : list (string * value)) :
  lookup k fs = Some v -> In (k, v) fs.
Proof.
  induction fs as [|[k0 x] l IH]; simpl; [discriminate|].
  destruct (String.eqb k k0) eqn:E.
  - apply String.eqb_eq in E as ->. intros [= ->]. now left.
  - intros H. right. now apply IH.
Qed.

Lemma lookup_rev (k : string) (fs : list (string * value)) :
  NoDup (List.map fst fs) -> lookup k (rev fs) = lookup k fs.
Proof.
  induction fs as [|[k0 x] l IH]; [reflexivity|].
  intros Hnd. inversion Hnd as [|? ? Hnotin Hnd']; subst.
  cbn [rev lookup]. rewrite lookup_app, (IH Hnd'). cbn [lookup].
  destruct (String.eqb k k0) eqn:E; [|now destruct (lookup k l)].
  apply String.eqb_eq in E as ->. now rewrite (lookup_None _ _ Hnotin).
Qed.

(** Spreading a source over collected properties: the source wins. *)
Lemma lookup_assign (k : string) (fs : list (string * value)) (source : value) :
  NoDup (List.map fst (own_props source)) ->
  lookup k (assign fs source)
  = match lookup k (own_props source) with
    | Some v => Some v
    | None => lookup k fs
    end.
Proof.
  intros Hnd. rewrite <- (lookup_rev _ _ Hnd). clear Hnd.
  unfold assign. generalize (own_props source) as l. intros l. revert fs.
  induction l as [|[k0 x] l IH]; intros fs; [reflexivity|].
  cbn [fold_left fst snd rev]. rewrite IH, lookup_app, lookup_set.
  cbn [lookup]. now destruct (lookup k (rev l)), (String.eqb k k0).
Qed.

Lemma getUpdatedProtocol_props (this : JobProtocol.t)
    (jobBasicInfo : JobBasicInfo.t) (jobTaskRoles : list TaskRole.t)
    (jobParameters jobSecrets : list KeyValue.t) :
  exists props,
    JobProtocol.getUpdatedProtocol this jobBasicInfo jobTaskRoles
      jobParameters jobSecrets = Ok (JobProtocol.construct (VObj props))
    /\ lookup "taskRoles" props
       = Some (JobProtocol._updateAndConvertTaskRoles jobTaskRoles)
    /\ lookup "defaults" props
       = Some (Utils.removeEmptyProperties
                 (JobBasicInfo.getDefaults jobBasicInfo))
    /\ lookup "deployments" props
       = Some (if Lodash.isEmpty (JobProtocol._generateDeployments jobTaskRoles)
               then VArr []
               else VArr [VObj [("name",
                                 Lodash.get (JobProtocol.to_object this)
                                   "defaults.deployment"
                                   (VStr "defaultDeployment"));
                                ("taskRoles",
                                 JobProtocol._generateDeployments
                                   jobTaskRoles)]])
    /\ (forall k,
           In k ["name"; "description"; "contributor"; "jobRetryCount";
                 "extras"] ->
           lookup k props
           = lookup k
               (assign (assign [] (JobProtocol.to_object this))
                  (JobBasicInfo.convertToProtocolFormat jobBasicInfo))).
Proof.
  eexists. split; [reflexivity|].
  rewrite !lookup_set. eval_key_tests.
  repeat split; try reflexivity.
  intros k Hk. cbn [In] in Hk.
  repeat (destruct Hk as [<- | Hk];
          [rewrite !lookup_set; eval_key_tests; reflexivity|]).
  contradiction.
Qed.

(** X12: in the document that [getUpdatedProtocol] returns for a
    document the constructor built, each of [name], [description],
    [contributor], [jobRetryCount] and [extras] is the field of the
    current document when the basic info does not give it, and
    otherwise the value the basic info gives, or the default of the
    field when that value is falsy. *)
Theorem getUpdatedProtocol_layers (props0 : value)
    (jobBasicInfo : JobBasicInfo.t) (jobTaskRoles : list TaskRole.t)
    (jobParameters jobSecrets : list KeyValue.t) :
  let this := JobProtocol.construct props0 in
  let basic := JobBasicInfo.convertToProtocolFormat jobBasicInfo in
  NoDup (List.map fst (own_props basic)) ->
  exists d,
    JobProtocol.getUpdatedProtocol this jobBasicInfo jobTaskRoles
      jobParameters jobSecrets = Ok d
    /\ (forall k,
           In k ["name"; "description"; "contributor"; "jobRetryCount";
                 "extras"] ->
           prop k (JobProtocol.to_object d)
           = match lookup k (own_props basic) with
             | None => prop k (JobProtocol.to_object this)
             | Some v =>
                 or v (prop k (JobProtocol.to_object
                                 (JobProtocol.construct (VObj []))))
             end).
Proof.
  intros this basic Hnd.
  destruct (getUpdatedProtocol_props this jobBasicInfo jobTaskRoles
              jobParameters jobSecrets) as (props & Hd & _ & _ & _ & Hkept).
  eexists. split; [exact Hd|].
  intros k Hk. pose proof (Hkept k Hk) as Hlookup.
  fold basic in Hlookup.
  rewrite (lookup_assign _ _ _ Hnd) in Hlookup.
  change (assign [] (JobProtocol.to_object this))
    with (assign [] (VObj (own_props (JobProtocol.to_object this))))
    in Hlookup.
  rewrite (assign_copy [] _ (to_object_keys this)) in Hlookup.
  cbn [In] in Hk.
  repeat (destruct Hk as [<- | Hk];
          [unfold prop at 1;
           cbn [JobProtocol.to_object own_props lookup String.eqb Ascii.eqb
                  Bool.eqb];
           unfold JobProtocol.construct at 1;
           cbn [JobProtocol.name JobProtocol.description
                  JobProtocol.contributor JobProtocol.jobRetryCount
                  JobProtocol.extras];
           unfold prop at 1; cbn [own_props]; rewrite Hlookup;
           destruct (lookup _ (own_props basic)); [reflexivity|];
           unfold prop;
           cbn [app JobProtocol.to_object own_props lookup String.eqb
                  Ascii.eqb Bool.eqb];
           unfold this, JobProtocol.construct;
           cbn [JobProtocol.name JobProtocol.description
                  JobProtocol.contributor JobProtocol.jobRetryCount
                  JobProtocol.extras];
           apply or_idem|]).
  contradiction.
Qed.

Lemma getUpdatedProtocol_layers_witness :
  exists d,
    JobProtocol.getUpdatedProtocol Examples.document
      {| JobBasicInfo.getDefaults := VObj [];
         JobBasicInfo.convertToProtocolFormat :=
           VObj [("name", VStr "job2"); ("description", VStr "")] |}
      [] [] [] = Ok d
    /\ JobProtocol.name d = VStr "job2"
    /\ JobProtocol.description d = VStr ""
    /\ JobProtocol.extras d = VObj [("submitFrom", VStr "portal")].
Proof.
  destruct (getUpdatedProtocol_layers Examples.bundle_full
              {| JobBasicInfo.getDefaults := VObj [];
                 JobBasicInfo.convertToProtocolFormat :=
                   VObj [("name", VStr "job2"); ("description", VStr "")] |}
              [] [] []) as (d & Hd & Hk).
  { cbn. repeat constructor; cbn; intuition discriminate. }
  exists d. split; [exact Hd|].
  split; [|split].
  - apply (Hk "name"%string). cbn. tauto.
  - apply (Hk "description"%string). cbn. tauto.
  - apply (Hk "extras"%string). cbn. tauto.
Defined.





(** ** Merging the task roles *)

Lemma reduce_objects (objects : list value) (fs : list (string * value)) :
  Utils.reduce Utils.keyValueArrayReducer objects (VObj fs)
  = VObj (fold_left assign objects fs).
Proof.
  revert fs. induction objects as [|o objects IH]; intros fs; [reflexivity|].
  unfold Utils.reduce in *. cbn [fold_left]. exact (IH _).
Qed.

Lemma lookup_fold_assign (k : string) (objects : list value)
    (fs : list (string * value)) :
  Forall (fun o => NoDup (List.map fst (own_props o))) objects ->
  lookup k (fold_left assign objects fs)
  = match last_binding k objects with
    | Some v => Some v
    | None => lookup k fs
    end.
Proof.
  intros Hwf. revert fs.
  induction Hwf as [|o objects Ho _ IH]; intros fs; [reflexivity|].
  cbn [fold_left last_binding]. rewrite IH.
  destruct (last_binding k objects); [reflexivity|].
  exact (lookup_assign _ _ _ Ho).
Qed.

Lemma fold_assign_keys (objects : list value) (fs : list (string * value)) :
  NoDup (List.map fst fs) ->
  NoDup (List.map fst (fold_left assign objects fs)).
Proof.
  revert fs. induction objects as [|o objects IH]; intros fs Hnd; [exact Hnd|].
  cbn [fold_left]. apply IH. now apply assign_keys.
Qed.

(** X14: the [taskRoles] of the document that [getUpdatedProtocol]
    returns merges what the roles convert to: a key is bound to the
    value that the last role to have it gives it, each key once, and
    nothing is pruned. *)
Theorem getUpdatedProtocol_taskRoles (this : JobProtocol.t)
    (jobBasicInfo : JobBasicInfo.t) (jobTaskRoles : list TaskRole.t)
    (jobParameters jobSecrets : list KeyValue.t) :
  Forall (fun taskRole =>
            NoDup (List.map fst
                     (own_props (TaskRole.convertToProtocolFormat taskRole))))
    jobTaskRoles ->
  exists d fs,
    JobProtocol.getUpdatedProtocol this jobBasicInfo jobTaskRoles
      jobParameters jobSecrets = Ok d
    /\ JobProtocol.taskRoles d = VObj fs
    /\ NoDup (List.map fst fs)
    /\ (forall k,
           lookup k fs
           = last_binding k
               (List.map TaskRole.convertToProtocolFormat jobTaskRoles)).
Proof.
  intros Hwf.
  destruct (getUpdatedProtocol_props this jobBasicInfo jobTaskRoles
              jobParameters jobSecrets) as (props & Hd & Hroles & _).
  unfold JobProtocol._updateAndConvertTaskRoles in Hroles.
  rewrite reduce_objects in Hroles.
  eexists _, _. split; [exact Hd|].
  split; [|split].
  - unfold JobProtocol.construct. cbn [JobProtocol.taskRoles].
    unfold prop. cbn [own_props]. rewrite Hroles. reflexivity.
  - apply fold_assign_keys. constructor.
  - intros k. rewrite lookup_fold_assign.
    + now destruct (last_binding k _).
    + now apply Forall_map.
Qed.

Lemma getUpdatedProtocol_taskRoles_witness :
  exists d fs,
    JobProtocol.getUpdatedProtocol Examples.document
      {| JobBasicInfo.getDefaults := VObj [];
         JobBasicInfo.convertToProtocolFormat := VObj [] |}
      [Examples.role "A" "img" "ubuntu"; Examples.role "A" "img2" "alpine"]
      [] [] = Ok d
    /\ JobProtocol.taskRoles d = VObj fs
    /\ lookup "A" fs
       = Some (VObj [("instances", VNum 1); ("dockerImage", VStr "img2")]).
Proof.
  destruct (getUpdatedProtocol_taskRoles Examples.document
              {| JobBasicInfo.getDefaults := VObj [];
                 JobBasicInfo.convertToProtocolFormat := VObj [] |}
              [Examples.role "A" "img" "ubuntu";
               Examples.role "A" "img2" "alpine"] [] [])
    as (d & fs & Hd & Hfs & _ & Hlookup).
  { repeat constructor; cbn; intuition. }
  exists d, fs. split; [exact Hd|]. split; [exact Hfs|].
  now rewrite Hlookup.
Defined.

(** ** Prerequisites with distinct names *)

Lemma JSMap_set_fresh (k v : value) (m : JSMap.t) :
  ~ In k (JSMap.keys m) -> JSMap.set k v m = (m ++ [(k, v)])%list.
Proof.
  induction m as [|[k0 v0] m IH]; simpl; intros Hk; [reflexivity|].
  destruct (value_eqb k k0) eqn:E.
  - apply value_eqb_eq in E. subst. tauto.
  - rewrite IH; [reflexivity | tauto].
Qed.

Lemma forEach_distinct (ps : list value) (m : JSMap.t) :
  NoDup (JSMap.keys m ++ List.map (prop "name") ps) ->
  fold_left (fun map value => JSMap.set (prop "name" value) value map) ps m
  = (m ++ List.map (fun p => (prop "name" p, p)) ps)%list.
Proof.
  revert m. induction ps as [|p ps IH]; intros m Hnd.
  - cbn. now rewrite app_nil_r.
  - cbn [fold_left List.map].
    assert (Hk : ~ In (prop "name" p) (JSMap.keys m)).
    { cbn [List.map] in Hnd. apply NoDup_remove_2 in Hnd.
      rewrite in_app_iff in Hnd. tauto. }
    rewrite (JSMap_set_fresh _ _ _ Hk), IH.
    + now rewrite <- app_assoc.
    + unfold JSMap.keys. rewrite map_app. cbn [List.map fst].
      rewrite <- app_assoc. exact Hnd.
Qed.

(** X15: when the prerequisites of the roles have pairwise distinct
    names, [_getTaskRolesPrerequisites] returns all of them, in the
    order of the roles. *)
Theorem prerequisites_distinct_names_kept (jobTaskRoles : list TaskRole.t) :
  let prerequisites :=
    List.map (fun taskRole => VObj (TaskRole.getDockerPrerequisite taskRole))
      jobTaskRoles in
  NoDup (List.map (prop "name") prerequisites) ->
  JobProtocol._getTaskRolesPrerequisites jobTaskRoles = VArr prerequisites.
Proof.
  intros prerequisites Hnd. unfold JobProtocol._getTaskRolesPrerequisites.
  fold prerequisites. rewrite forEach_distinct by exact Hnd.
  unfold JSMap.values. cbn [app]. rewrite map_map. cbn [snd].
  now rewrite map_id.
Qed.

Lemma prerequisites_distinct_names_kept_witness :
  JobProtocol._getTaskRolesPrerequisites
    [Examples.role "A" "img" "ubuntu"; Examples.role "B" "other" "alpine"]
  = VArr [VObj (TaskRole.getDockerPrerequisite
                  (Examples.role "A" "img" "ubuntu"));
          VObj (TaskRole.getDockerPrerequisite
                  (Examples.role "B" "other" "alpine"))].
Proof.
  apply (prerequisites_distinct_names_kept
           [Examples.role "A" "img" "ubuntu";
            Examples.role "B" "other" "alpine"]).
  cbn. repeat constructor; cbn; intuition discriminate.
Defined.

(** ** The handlers of the [Secrets] table *)

Lemma nth_error_update (s : Secrets.store) (r r' : nat)
    (f : KeyValue.t -> KeyValue.t) :
  nth_error (Secrets.update s r f) r'
  = if Nat.eqb r' r then option_map f (nth_error s r') else nth_error s r'.
Proof.
  revert r r'. induction s as [|row s IH]; intros r r'.
  - cbn. destruct r; destruct r'; cbn; try reflexivity;
      now destruct (Nat.eqb r' r).
  - destruct r as [|r]; destruct r' as [|r']; cbn; try reflexivity.
    apply IH.
Qed.

Lemma rows_update (s : Secrets.store) (a : Secrets.array) (r : nat)
    (f : KeyValue.t -> KeyValue.t) :
  Secrets.rows (Secrets.update s r f) a
  = List.map
      (fun r' => if Nat.eqb r' r then option_map f (nth_error s r')
                 else nth_error s r') a.
Proof.
  unfold Secrets.rows. apply map_ext. intros r'. apply nth_error_update.
Qed.

(** X16: [onAdd] passes on the rows of the table followed by one
    blank row, and leaves the rows that were there as they are. *)
Theorem onAdd_appends_blank (s : Secrets.store) (secrets : Secrets.array) :
  Forall (fun r => (r < List.length s)%nat) secrets ->
  Secrets.rows (fst (Secrets.onAdd s secrets)) (snd (Secrets.onAdd s secrets))
  = (Secrets.rows s secrets ++ [Some Secrets.blank])%list
  /\ Secrets.rows (fst (Secrets.onAdd s secrets)) secrets
     = Secrets.rows s secrets.
Proof.
  intros Hwf. cbn [Secrets.onAdd fst snd].
  assert (Hold : Secrets.rows (s ++ [Secrets.blank])%list secrets
                 = Secrets.rows s secrets).
  { unfold Secrets.rows. apply map_ext_in. intros r Hr.
    rewrite Forall_forall in Hwf. now apply nth_error_app1, Hwf. }
  split; [|exact Hold].
  unfold Secrets.rows in *. rewrite map_app, Hold. cbn [List.map].
  rewrite nth_error_app2 by lia. now rewrite Nat.sub_diag.
Qed.

Lemma onAdd_appends_blank_witness :
  Secrets.rows
    (fst (Secrets.onAdd [Examples.row "k1" "hunter2"] [0%nat]))
    (snd (Secrets.onAdd [Examples.row "k1" "hunter2"] [0%nat]))
  = [Some (Examples.row "k1" "hunter2"); Some Secrets.blank].
Proof.
  apply (onAdd_appends_blank [Examples.row "k1" "hunter2"] [0%nat]).
  repeat constructor.
Defined.

Lemma slice_to (A : Type) (xs : list A) (idx : Z) :
  0 <= idx ->
  Secrets.slice xs 0 idx = firstn (Z.to_nat idx) xs.
Proof.
  intros Hidx. unfold Secrets.slice, Secrets.relative.
  destruct (Z.ltb_spec 0 0) as [H|_]; [lia|].
  destruct (Z.ltb_spec idx 0) as [H|_]; [lia|].
  rewrite (Z.min_l 0) by lia. cbn [Z.to_nat skipn].
  destruct (Z.min_spec idx (Z.of_nat (List.length xs))) as [[_ ->] | [Hle ->]].
  - now rewrite Z.sub_0_r.
  - rewrite Z.sub_0_r, Nat2Z.id.
    rewrite !firstn_all2; [reflexivity | lia | lia].
Qed.

Lemma slice_from_at (A : Type) (xs : list A) (start : Z) :
  0 <= start ->
  Secrets.slice_from xs start = skipn (Z.to_nat start) xs.
Proof.
  intros Hstart. unfold Secrets.slice_from, Secrets.slice, Secrets.relative.
  destruct (Z.ltb_spec start 0) as [H|_]; [lia|].
  destruct (Z.ltb_spec (Z.of_nat (List.length xs)) 0) as [H|_]; [lia|].
  rewrite Z.min_id.
  destruct (Z.min_spec start (Z.of_nat (List.length xs))) as [[Hlt ->] | [Hle ->]].
  - apply firstn_all2. rewrite length_skipn. lia.
  - rewrite Nat2Z.id, Z.sub_diag. cbn [Z.to_nat firstn].
    symmetry. apply skipn_all2. lia.
Qed.

(** X17: [onRemove] with the index of a row passes on the rows
    before it followed by the rows after it, one row fewer, and does
    not touch the store; with an index at or past the end it passes on
    all the rows. *)
Theorem onRemove_removes_row (s : Secrets.store) (secrets : Secrets.array)
    (idx : Z) :
  0 <= idx ->
  fst (Secrets.onRemove s secrets idx) = s
  /\ snd (Secrets.onRemove s secrets idx)
     = (firstn (Z.to_nat idx) secrets ++ skipn (S (Z.to_nat idx)) secrets)%list
  /\ (idx < Z.of_nat (List.length secrets) ->
      S (List.length (snd (Secrets.onRemove s secrets idx)))
      = List.length secrets)
  /\ (Z.of_nat (List.length secrets) <= idx ->
      snd (Secrets.onRemove s secrets idx) = secrets).
Proof.
  intros Hidx. cbn [Secrets.onRemove fst snd].
  rewrite (slice_to _ _ _ Hidx), slice_from_at by lia.
  replace (Z.to_nat (idx + 1)) with (S (Z.to_nat idx)) by lia.
  split; [reflexivity|]. split; [reflexivity|]. split.
  - intros Hlt. rewrite length_app, length_firstn, length_skipn. lia.
  - intros Hge. rewrite firstn_all2, skipn_all2 by lia. apply app_nil_r.
Qed.

Lemma onRemove_removes_row_witness :
  snd (Secrets.onRemove [] [10; 11; 12]%nat 1) = [10; 12]%nat
  /\ snd (Secrets.onRemove [] [10; 11; 12]%nat 3) = [10; 11; 12]%nat.
Proof.
  destruct (onRemove_removes_row [] [10; 11; 12]%nat 1 ltac:(lia))
    as (_ & H1 & _).
  destruct (onRemove_removes_row [] [10; 11; 12]%nat 3 ltac:(lia))
    as (_ & _ & _ & H3).
  split; [exact H1 | apply H3; cbn; lia].
Defined.

(** X18: [onRemove] with index -1 does not remove a row: it passes
    on all rows but the last, followed by all rows.  With an index of
    -2 or less it passes on the rows without the one that lies that
    far from the end, or all the rows when there is no such row. *)
Theorem onRemove_negative_index (s : Secrets.store) (secrets : Secrets.array)
    (idx : Z) :
  let len := Z.of_nat (List.length secrets) in
  (idx = -1 ->
   snd (Secrets.onRemove s secrets idx)
   = (firstn (Z.to_nat (len - 1)) secrets ++ secrets)%list)
  /\ (idx <= -2 ->
      snd (Secrets.onRemove s secrets idx)
      = (firstn (Z.to_nat (len + idx)) secrets
         ++ skipn (Z.to_nat (len + idx + 1)) secrets)%list)
  /\ (idx < - len ->
      snd (Secrets.onRemove s secrets idx) = secrets).
Proof.
  intros len.
  assert (Hto : idx < 0 ->
                Secrets.slice secrets 0 idx
                = firstn (Z.to_nat (len + idx)) secrets).
  { intros Hneg. unfold Secrets.slice, Secrets.relative. fold len.
    destruct (Z.ltb_spec 0 0) as [H|_]; [lia|].
    destruct (Z.ltb_spec idx 0) as [_|H]; [|lia].
    rewrite (Z.min_l 0) by lia. cbn [Z.to_nat skipn].
    f_equal. lia. }
  assert (Hfrom : idx <= -2 ->
                  Secrets.slice_from secrets (idx + 1)
                  = skipn (Z.to_nat (len + idx + 1)) secrets).
  { intros Hneg. unfold Secrets.slice_from, Secrets.slice, Secrets.relative.
    fold len.
    destruct (Z.ltb_spec (idx + 1) 0) as [_|H]; [|lia].
    destruct (Z.ltb_spec len 0) as [H|_]; [lia|].
    rewrite Z.min_id.
    replace (Z.to_nat (Z.max (len + (idx + 1)) 0))
      with (Z.to_nat (len + idx + 1)) by lia.
    apply firstn_all2. rewrite length_skipn. lia. }
  cbn [Secrets.onRemove snd]. split; [|split].
  - intros ->. rewrite Hto by lia.
    change (-1 + 1) with 0. rewrite slice_from_at by lia.
    cbn [Z.to_nat skipn]. do 2 f_equal.
  - intros Hneg. now rewrite Hto, Hfrom by lia.
  - intros Hfar. rewrite Hto by lia.
    replace (Z.to_nat (len + idx)) with 0%nat by lia. cbn [firstn app].
    destruct (Z.eq_dec idx (-1)) as [-> | Hne].
    + change (-1 + 1) with 0. now rewrite slice_from_at by lia.
    + rewrite Hfrom by lia.
      now replace (Z.to_nat (len + idx + 1)) with 0%nat by lia.
Qed.

Lemma onRemove_negative_index_witness :
  snd (Secrets.onRemove [] [10; 11; 12]%nat (-1)) = [10; 11; 10; 11; 12]%nat
  /\ snd (Secrets.onRemove [] [10; 11; 12]%nat (-2)) = [10; 12]%nat.
Proof.
  split.
  - exact (proj1 (onRemove_negative_index [] [10; 11; 12]%nat (-1)) eq_refl).
  - apply (proj1 (proj2 (onRemove_negative_index [] [10; 11; 12]%nat (-2)))).
    lia.
Defined.

Lemma at_Some (A : Type) (xs : list A) (idx : Z) (x : A) :
  Secrets.at_ xs idx = Some x ->
  0 <= idx < Z.of_nat (List.length xs)
  /\ nth_error xs (Z.to_nat idx) = Some x.
Proof.
  unfold Secrets.at_. destruct (Z.ltb_spec idx 0) as [|Hidx]; [discriminate|].
  intros H. split; [|exact H].
  assert (Hlt : (Z.to_nat idx < List.length xs)%nat)
    by (apply nth_error_Some; congruence).
  lia.
Qed.

Lemma at_None (A : Type) (xs : list A) (idx : Z) :
  Secrets.at_ xs idx = None <-> idx < 0 \/ Z.of_nat (List.length xs) <= idx.
Proof.
  unfold Secrets.at_. destruct (Z.ltb_spec idx 0) as [Hneg|Hidx].
  - split; [now left | reflexivity].
  - rewrite nth_error_None. lia.
Qed.

(** X19: [onKeyChange] and [onValueChange] with the index of a row
    write into the row object itself and pass on the array of the
    same rows: every place of the table that holds that row shows the
    new key (or value), with the other property of the row unchanged,
    and every other row is as before; so is the array that was
    rendered.  When the rows of the table are distinct objects, only
    the row at the index changes. *)
Theorem onChange_handlers_edit_in_place (s : Secrets.store)
    (secrets : Secrets.array) (idx : Z) (val : value) (r : nat) :
  Secrets.at_ secrets idx = Some r ->
  let set_key row :=
    {| KeyValue.key := val; KeyValue.value := KeyValue.value row |} in
  let set_value row :=
    {| KeyValue.key := KeyValue.key row; KeyValue.value := val |} in
  let changed f :=
    List.map (fun r' => if Nat.eqb r' r then option_map f (nth_error s r')
                        else nth_error s r') secrets in
  (exists s',
      Secrets.onKeyChange s secrets idx val = Ok (s', secrets)
      /\ Secrets.rows s' secrets = changed set_key)
  /\ (exists s',
         Secrets.onValueChange s secrets idx val = Ok (s', secrets)
         /\ Secrets.rows s' secrets = changed set_value)
  /\ (NoDup secrets ->
      forall f i,
        i <> Z.to_nat idx ->
        nth_error (changed f) i = nth_error (Secrets.rows s secrets) i).
Proof.
  intros Hat set_key set_value changed.
  split; [|split].
  - eexists. unfold Secrets.onKeyChange. rewrite Hat.
    split; [reflexivity | apply rows_update].
  - eexists. unfold Secrets.onValueChange. rewrite Hat.
    split; [reflexivity | apply rows_update].
  - intros Hnd f i Hi. unfold changed, Secrets.rows.
    rewrite !nth_error_map.
    destruct (nth_error secrets i) as [r'|] eqn:Ei; [|reflexivity].
    cbn [option_map]. destruct (Nat.eqb_spec r' r) as [-> | _]; [|reflexivity].
    exfalso. apply Hi. apply at_Some in Hat as [_ Hat].
    apply (proj1 (NoDup_nth_error secrets) Hnd); [|congruence].
    apply nth_error_Some. congruence.
Qed.

Lemma onChange_handlers_edit_in_place_witness :
  exists s',
    Secrets.onKeyChange [Examples.row "k1" "hunter2"; Secrets.blank]
      [0; 1]%nat 1 (VStr "k2") = Ok (s', [0; 1]%nat)
    /\ Secrets.rows s' [0; 1]%nat
       = [Some (Examples.row "k1" "hunter2"); Some (Examples.row "k2" "")]
    /\ nth_error (Secrets.rows s' [0; 1]%nat) 0
       = nth_error
           (Secrets.rows [Examples.row "k1" "hunter2"; Secrets.blank]
              [0; 1]%nat) 0.
Proof.
  destruct (onChange_handlers_edit_in_place
              [Examples.row "k1" "hunter2"; Secrets.blank] [0; 1]%nat 1
              (VStr "k2") 1%nat eq_refl) as ((s' & Hs' & Hrows) & _ & Hothers).
  exists s'. split; [exact Hs'|]. split; [exact Hrows|].
  rewrite Hrows. apply Hothers.
  - repeat constructor; cbn; intuition discriminate.
  - discriminate.
Defined.

(** X20: [onKeyChange] and [onValueChange] with an index that is
    negative or not below the number of rows throw a [TypeError];
    [onChange] is not called. *)
Theorem onChange_handlers_out_of_range (s : Secrets.store)
    (secrets : Secrets.array) (idx : Z) (val : value) :
  idx < 0 \/ Z.of_nat (List.length secrets) <= idx ->
  Secrets.onKeyChange s secrets idx val = Throw TypeError
  /\ Secrets.onValueChange s secrets idx val = Throw TypeError.
Proof.
  intros Hidx. apply at_None in Hidx.
  unfold Secrets.onKeyChange, Secrets.onValueChange. now rewrite Hidx.
Qed.

Lemma onChange_handlers_out_of_range_witness :
  Secrets.onKeyChange [Secrets.blank] [0%nat] 1 (VStr "k") = Throw TypeError
  /\ Secrets.onValueChange [Secrets.blank] [0%nat] 1 (VStr "v")
     = Throw TypeError.
Proof.
  split.
  - apply (onChange_handlers_out_of_range [Secrets.blank] [0%nat] 1 (VStr "k")).
    right. cbn. lia.
  - apply (onChange_handlers_out_of_range [Secrets.blank] [0%nat] 1 (VStr "v")).
    right. cbn. lia.
Defined.

(** X21: removing, right after [onAdd], the row at the index that
    [onAdd] gave the blank row passes on the array as it was before
    [onAdd]. *)
Theorem onRemove_after_onAdd (s : Secrets.store) (secrets : Secrets.array) :
  let added := Secrets.onAdd s secrets in
  snd (Secrets.onRemove (fst added) (snd added)
         (Z.of_nat (List.length secrets)))
  = secrets.
Proof.
  cbn [Secrets.onAdd Secrets.onRemove fst snd].
  rewrite slice_to, slice_from_at by lia.
  replace (Z.to_nat (Z.of_nat (List.length secrets) + 1))
    with (S (List.length secrets)) by lia.
  rewrite Nat2Z.id.
  rewrite firstn_app, Nat.sub_diag, firstn_all. cbn [firstn].
  rewrite skipn_all2 by (rewrite length_app; cbn; lia).
  now rewrite !app_nil_r.
Qed.

(** ** Rows with an empty value *)

Lemma last_edit_app (k : string) (edits : list KeyValue.t) (e : KeyValue.t) :
  last_edit k (edits ++ [e])
  = if String.eqb (ToString (KeyValue.key e)) k
    then Some (KeyValue.value e)
    else last_edit k edits.
Proof.
  induction edits as [|a edits IH]; cbn [app last_edit].
  - reflexivity.
  - rewrite IH. now destruct (String.eqb (ToString (KeyValue.key e)) k).
Qed.

(** X22: a row with an empty string as value, put after the rows of
    a parameter or secret table, removes the key of the row from the
    mapping that [getUpdatedProtocol] makes of the table and leaves
    every other key as it was; the blank row that [onAdd] appends
    removes at most the key [""]. *)
Theorem edits_empty_value_deletes_key (edits : list KeyValue.t)
    (e : KeyValue.t) :
  KeyValue.value e = VStr "" ->
  exists fs fs',
    JobProtocol.edits_mapping (edits ++ [e]) = VObj fs
    /\ JobProtocol.edits_mapping edits = VObj fs'
    /\ lookup (ToString (KeyValue.key e)) fs = None
    /\ (forall k, k <> ToString (KeyValue.key e) -> lookup k fs = lookup k fs').
Proof.
  intros Hv.
  destruct (edits_mapping_lookup (edits ++ [e]))
    as (fs & Hfs & _ & Hproto & Hlookup).
  destruct (edits_mapping_lookup edits)
    as (fs' & Hfs' & _ & Hproto' & Hlookup').
  exists fs, fs'. split; [exact Hfs|]. split; [exact Hfs'|]. split.
  - destruct (String.eqb (ToString (KeyValue.key e)) "__proto__") eqn:E.
    + apply String.eqb_eq in E. now rewrite E.
    + apply String.eqb_neq in E.
      rewrite (Hlookup _ E), last_edit_app, String.eqb_refl, Hv. reflexivity.
  - intros k Hk. destruct (String.eqb k "__proto__") eqn:E.
    + apply String.eqb_eq in E. subst k. now rewrite Hproto, Hproto'.
    + apply String.eqb_neq in E.
      rewrite (Hlookup _ E), (Hlookup' _ E), last_edit_app.
      destruct (String.eqb (ToString (KeyValue.key e)) k) eqn:E';
        [|reflexivity].
      apply String.eqb_eq in E'. congruence.
Qed.

Lemma edits_empty_value_deletes_key_witness :
  exists fs,
    JobProtocol.edits_mapping
      ([Examples.row "a" "1"; Examples.row "b" "2"] ++ [Examples.row "a" ""])
    = VObj fs
    /\ lookup "a" fs = None
    /\ lookup "b" fs = Some (VStr "2").
Proof.
  destruct (edits_empty_value_deletes_key
              [Examples.row "a" "1"; Examples.row "b" "2"]
              (Examples.row "a" "") eq_refl)
    as (fs & fs' & Hfs & Hfs' & Ha & Hb).
  exists fs. split; [exact Hfs|]. split; [exact Ha|].
  rewrite (Hb "b"%string) by discriminate.
  vm_compute in Hfs'. injection Hfs' as <-. reflexivity.
Defined.

(** ** Parsing what was written, for any document *)

Section WrittenAndParsed.
Variable safeLoad : string -> result value.
Variable safeDump : value -> result string.

Hypothesis safeLoad_safeDump :
  forall v text, safeDump v = Ok text -> safeLoad text = Ok v.

(** X23: on the text that [toYaml] returns for a document,
    [fromYaml] returns the document that the constructor builds from
    the pruned fields; a document whose [deployments] is the empty
    sequence, as [getUpdatedProtocol] makes it when no role has a
    deployment, comes back with [deployments] the empty mapping. *)
Theorem fromYaml_toYaml_pruned (d : JobProtocol.t) (text : string) :
  JobProtocol.toYaml safeDump d = JobProtocol.Return text ->
  exists d',
    JobProtocol.fromYaml safeLoad text = JobProtocol.Return d'
    /\ d' = JobProtocol.construct
              (Utils.removeEmptyProperties (JobProtocol.to_object d))
    /\ (JobProtocol.deployments d = VArr [] ->
        JobProtocol.deployments d' = VObj []).
Proof.
  unfold JobProtocol.toYaml, JobProtocol.fromYaml.
  destruct (safeDump (Utils.removeEmptyProperties (JobProtocol.to_object d)))
    as [text'|e] eqn:E; [|discriminate].
  intros [= ->]. rewrite (safeLoad_safeDump _ _ E).
  eexists. split; [reflexivity|]. split; [reflexivity|].
  intros Hdep. unfold JobProtocol.construct. cbn [JobProtocol.deployments].
  change (Utils.removeEmptyProperties (JobProtocol.to_object d))
    with (VObj (pruned_fields (own_props (JobProtocol.to_object d)))).
  unfold prop. cbn [own_props].
  rewrite (lookup_pruned_fields _ _ (to_object_keys d)).
  cbn [JobProtocol.to_object own_props lookup String.eqb Ascii.eqb Bool.eqb].
  now rewrite Hdep.
Qed.
End WrittenAndParsed.

Lemma table2_safeLoad_safeDump (v : value) (text : string) :
  MoreExamples.safeDump v = Ok text -> MoreExamples.safeLoad text = Ok v.
Proof.
  unfold MoreExamples.safeDump.
  destruct (value_eqb v MoreExamples.written) eqn:E; [|discriminate].
  apply value_eqb_eq in E as ->. now intros [= <-].
Qed.

Lemma fromYaml_toYaml_pruned_witness :
  exists d',
    JobProtocol.fromYaml MoreExamples.safeLoad MoreExamples.document_yaml
    = JobProtocol.Return d'
    /\ JobProtocol.deployments MoreExamples.document = VArr []
    /\ JobProtocol.deployments d' = VObj [].
Proof.
  destruct (fromYaml_toYaml_pruned MoreExamples.safeLoad MoreExamples.safeDump
              table2_safeLoad_safeDump MoreExamples.document
              MoreExamples.document_yaml eq_refl) as (d' & Hd' & _ & Hdep).
  exists d'. split; [exact Hd'|]. split; [reflexivity|].
  apply Hdep. reflexivity.
Defined.
